(* ===== verification/_CoqProject ===== *)
-Q . S2P
Prelude.v
JsString.v
Regex.v
JsDate.v
Tables.v
Checksum.v
Validate.v
Trace.v
Convert.v
Values.v
Keyboard.v
Spec.v
