(* ===== verification/Prelude.v ===== *)
(** * Verification of [idCardNoUtil] (King603/Build_your_own_application_class)

    The program: [src/js/idCardNoUtil.js] is a JavaScript class that
    validates and converts the citizen identity numbers of GB 11643-1999
    (15-character legacy form and 18-character current form), and
    [src/js/Keyboard.js] is a constant table of key names.  The class
    keeps no mutable state: its fields are four constant tables
    ([provinceAndCitys], [powers], [parityBit], [genders]) and every method
    is a function of its argument, of those tables and, for the birth
    date check, of the clock ([new Date()]).

    How the parts interact: [checkIdCardNo] filters its argument with a
    regular expression and dispatches on the length to [check15IdCardNo]
    or [check18IdCardNo]; both call [checkAddressCode] (table lookup) and
    [checkBirthDayCode] (calendar arithmetic through [Date]); the
    18-character check also calls [checkParityBit], which calls
    [getParityBit] (the ISO 7064 MOD 11-2 check character).  The
    converters [getId15] and [getId18] cut and splice substrings, and
    [getId18] calls [getParityBit] as well.  [getIdCardInfo] decodes the
    birthday and the gender without validating.

    The library, one file per part, in dependency order:
    - [Prelude] (this file): the notation [‹"..."›] for string literals
      (scope [idcard_scope]), the hint databases, the tactics shared by
      all files ([explode_list], [eval_decide], [bool_to_prop]), the
      enumeration of the 256 characters, and generic lemmas on lists and
      integers.
    - [JsString] (Module [Js]): the part of the JavaScript runtime the
      class uses on strings and numbers: [substring], [charAt],
      [toUpperCase], [parseInt] (white space, sign, radix, [0x] prefix;
      NaN is [None]), [+], [*], [%], array indexing and [==].  A string is
      a [list ascii].
    - [Regex]: [RegExp.prototype.test] for the constructs of the source
      (classes, concatenation, alternation, [{n}], [^], [$]) as a
      backtracking matcher in continuation-passing style, as the
      ECMAScript specification defines it, and its characterisation on
      fixed-width patterns ([accepts], [test_anchored]).
    - [JsDate]: the proleptic Gregorian calendar; [new Date(y, m, d)]
      ([MakeDay]: month carried into the year, day overflow carried into
      the next or previous months by [add_days]), the getters, and [>] on
      dates; day numbers and time values.
    - [Tables]: the four constant fields of the class
      ([provinceAndCitys] as a [gmap Z]).
    - [Checksum]: [getParityBit] (its [for] loop as a [fold_left] over
      JavaScript numbers) and [checkParityBit], against the ISO 7064
      MOD 11-2 rule.
    - [Validate]: the regular expressions of the source and the methods
      [checkAddressCode], [checkBirthDayCode], [check15IdCardNo],
      [check18IdCardNo], [checkIdCardNo]; the clock [new Date()] is the
      variable [now] of Section [WithClock].
    - [Trace] (after [Validate]): the same validation methods run in a
      state monad whose state counts the reads of the clock
      ([new Date()], a function from the number of the read to a date)
      and logs the method calls in order ([checkIdCardNo_m],
      [check15IdCardNo_m], [check18IdCardNo_m], [checkAddressCode_m],
      [checkBirthDayCode_m], [checkParityBit_m]).  It justifies the
      single clock value [now] of [Validate] and fixes the order of the
      checks.
    - [Convert]: [formateDateCN], [getIdCardInfo], [getId15], [getId18];
      [null] and [undefined] results are [None].
    - [Values] (after [Convert]): the public methods on an argument of
      any JavaScript type ([jsval]: string, integer number, boolean,
      [null], [undefined]) in an exception monad [res]; the regular
      expressions see [ToString] of the argument, [idCardNo.length] is
      [undefined] on a number and a TypeError on [null], and a call of
      [substring] on anything but a string is a TypeError.
    - [Keyboard]: the key table [Keys] of [src/js/Keyboard.js] and its
      helper [set], with its data invariants and the codes that are not
      [KeyboardEvent.code] values.
    - [Spec]: the contract of a valid number stated without the code
      ([valid15], [valid18]: digits, a key of the province table, a real
      birth date not in the future, the MOD 11-2 sum) and the refinement
      theorem.

    The theorems, by group:
    - refinement: [Spec.checkIdCardNo_correct] ([checkIdCardNo] decides
      [valid15 \/ valid18] for every string), with the method-level
      characterisations [checkAddressCode_correct],
      [checkBirthDayCode_correct], [checkParityBit_correct];
      [JsDate.new_Date_MakeDay] and [JsDate.date_gt_time_value] (the date
      model against ECMAScript's day numbers and time values);
      [Regex.test_lmatch] (the backtracking matcher against the
      declarative semantics [lmatch], by rule induction);
    - equivalence and safety of the checksum: [getParityBit_iso] (loop
      and table equal the formula [(12 - S mod 11) mod 11]),
      [getParityBit_detects_substitution] and
      [getParityBit_detects_transposition];
    - round trips of the converters: [getId15_getId18] (15 to 18 to 15 is
      the identity exactly on digit strings), [getId18_getId15] (18 to 15
      to 18 is the identity exactly for the century 19 and no lower-case
      [x]), [getId15_stable] (18 to 15 cuts out the century and the
      check character, and is then stable), [getId18_valid] (a 15-character number
      [checkIdCardNo] accepts becomes an 18-character one it accepts);
    - effects and order: [Trace.checkIdCardNo_one_clock_read] (a
      validation reads the clock at most once and returns the [Validate]
      model at that reading), [Trace.check18IdCardNo_m_order] (pattern,
      region, date, check character: the run gets past each step exactly
      when it and every earlier check passed);
    - information across operations: [getIdCardInfo_getId18] (upgrading
      keeps birthday and gender), [getIdCardInfo_getId15] (downgrading
      keeps them exactly for the century 19),
      [checkIdCardNo_info_birthday] (the birthday reported for an
      accepted number is a date [checkBirthDayCode] accepts);
    - error paths of the untyped API: [Values.checkIdCardNo_v_total]
      ([checkIdCardNo] never throws, and is [false] on non-strings),
      [Values.conversions_v_on_type] ([getId15], [getId18],
      [getIdCardInfo] throw exactly on [null] and [undefined]), and the
      example [Values.number_arguments] (the other checks throw on a
      number their pattern accepts);
    - acceptance over time: [Spec.checkIdCardNo_stable_in_time] (a number
      accepted at one reading of the clock is accepted at every later
      one);
    - the region boundary of the specification:
      [Spec.checkAddressCode_00_11] (for all four-digit suffixes), with
      the specification's fixed examples evaluated in [Spec.spec_examples];
    - the birth-date boundary: [Spec.checkBirthDayCode_day_number] (a day
      written [yyyymmdd] is accepted exactly when its day number is at
      most the clock's: today is accepted, tomorrow is not);
    - bounds: [getParityBit_power_bounds] (the running sum of the loop
      stays in [0 .. 900], so double-precision arithmetic is exact there,
      as the integer model takes it);
    - adequacy of the Date model, as lemmas: [checkBirthDayCode_date_fuel]
      (on every string its pattern accepts, the day iteration of the
      [new Date] that [checkBirthDayCode] builds ends within 31 steps),
      [checkBirthDayCode_time_clip] (those dates are within [TimeClip]'s
      range);
    - functional behaviour of each method on every branch, errors
      included ([checkIdCardNo_dispatch], [check15IdCardNo_spec],
      [check18IdCardNo_spec], [getIdCardInfo_spec]);
    - what the modelling showed: [re_idcard_accepts_suffix] (the first
      filter of [checkIdCardNo] is mis-anchored but harmless), and the
      evaluated examples behind the findings: [getId15_loses_century],
      [spec_fixture_check_char], [Keys_nonstandard_codes];
    - the key table, a constant: [Keys_fields_read] and
      [Keys_codes_distinct], checked by evaluation.

    Bounds and fuel: [add_days] takes [|d - 1| + 1] steps of fuel; every
    step crosses one month boundary and consumes at least one day, so the
    bound is enough ([add_days_step] shows that each step shrinks
    [|k|], [add_days_fuel] that any larger fuel computes the same day).  Facts on
    single characters are proved by evaluation over all 256 of them, and
    the check-character facts by evaluation over the 11 remainders and
    the 19 digit differences.

    Not modelled: time zones and
    daylight saving (local time is a uniform clock); [TimeClip] (the
    dates the source builds are proved to lie within its range by
    [checkBirthDayCode_time_clip]); double-precision numbers (the integers the
    source computes are proved small enough to be exact); characters outside the
    8-bit range (the inputs compared are ASCII); the capture groups of
    the regular expressions (the source uses only the boolean of
    [test]); the exponent form of [Number::toString] for numbers from
    [10^21] (only the weights 1 to 10 are converted); arguments that
    are objects or non-integer numbers (the methods' behaviour on them
    goes through [toString] and [valueOf], which the source does not
    constrain).  Every statement of
    the two source files is modelled: the lines the map leaves out are
    comments, the class header and blank lines.  There is no liveness
    property to state: every method is a
    terminating function of its argument and of the clock, with no
    event loop, callback or shared state. *)

From Stdlib Require Export Ascii String ZArith Lia.
From stdpp Require Export base list strings.

Declare Scope idcard_scope.
Delimit Scope idcard_scope with idc.
Open Scope idcard_scope.

(** A string literal of the source, as the list of its characters. *)
Notation "‹ s ›" := (list_ascii_of_string s%string)
  (at level 0, format "‹ s ›") : idcard_scope.

Create HintDb idcard.
Create Rewrite HintDb idcard_len.

(** ** Finite enumeration of the characters *)

Definition all_ascii : list ascii := map ascii_of_nat (seq 0 256).

Lemma all_ascii_complete (a : ascii) : In a all_ascii.
Proof.
  unfold all_ascii. rewrite <- (ascii_nat_embedding a).
  apply in_map, in_seq. pose proof (nat_ascii_bounded a). lia.
Qed.

(** A property of one character, or of a pair of characters, is checked
    by evaluating it on all of them. *)
Lemma forall_ascii (f : ascii -> bool) :
  forallb f all_ascii = true -> forall a, f a = true.
Proof.
  intros H a. rewrite forallb_forall in H. apply H, all_ascii_complete.
Qed.

Lemma forall_ascii2 (f : ascii -> ascii -> bool) :
  forallb (fun a => forallb (f a) all_ascii) all_ascii = true ->
  forall a b, f a b = true.
Proof.
  intros H a. apply forall_ascii. revert a. exact (forall_ascii _ H).
Qed.

(** Two boolean functions of characters that agree everywhere. *)
Lemma forall_ascii_eq (f g : ascii -> bool) :
  forallb (fun a => Bool.eqb (f a) (g a)) all_ascii = true -> forall a, f a = g a.
Proof. intros H a. apply Bool.eqb_prop. exact (forall_ascii _ H a). Qed.

Lemma forall_ascii2_eq (f g : ascii -> ascii -> bool) :
  forallb (fun a => forallb (fun b => Bool.eqb (f a b) (g a b)) all_ascii) all_ascii = true ->
  forall a b, f a b = g a b.
Proof. intros H a b. apply Bool.eqb_prop. exact (forall_ascii2 _ H a b). Qed.

(** A property of the integers of a range, checked by evaluation. *)
Lemma forall_Z_range (f : Z -> bool) (lo : Z) (n : nat) :
  forallb f (map (fun i => lo + Z.of_nat i)%Z (seq 0 n)) = true ->
  forall z, (lo <= z < lo + Z.of_nat n)%Z -> f z = true.
Proof.
  intros H z Hz. rewrite forallb_forall in H. apply H, in_map_iff.
  exists (Z.to_nat (z - lo)). split; [lia|]. apply in_seq. lia.
Qed.

Lemma forall_nat_range (f : nat -> bool) (n : nat) :
  forallb f (seq 0 n) = true -> forall j, (j < n)%nat -> f j = true.
Proof. intros H j Hj. rewrite forallb_forall in H. apply H, in_seq. lia. Qed.

Lemma forallb_lookup {A} (f : A -> bool) (l : list A) i x :
  forallb f l = true -> l !! i = Some x -> f x = true.
Proof.
  intros H Hi. rewrite forallb_forall in H. apply H, list_elem_of_In.
  by eapply list_elem_of_lookup_2.
Qed.

(** A [forallb] that fails names the position of a failing element. *)
Lemma forallb_false_lookup {A} (f : A -> bool) (l : list A) :
  forallb f l = false -> exists i x, l !! i = Some x /\ f x = false.
Proof.
  induction l as [|y l IH]; simpl; [done|]. destruct (f y) eqn:Hy; simpl.
  - intros H. destruct (IH H) as (i & x & Hi & Hx). by exists (S i), x.
  - intros _. by exists 0%nat, y.
Qed.

(** A function of the integers that grows at each step from [a] grows
    from [a] to any [b >= a]. *)
Lemma Z_step_mono (f : Z -> Z) a b :
  (forall x, a <= x -> f x <= f (x + 1))%Z -> (a <= b)%Z -> (f a <= f b)%Z.
Proof.
  intros Hs Hab. replace b with (a + Z.of_nat (Z.to_nat (b - a)))%Z by lia.
  induction (Z.to_nat (b - a)) as [|n IH]; [rewrite Z.add_0_r; lia|].
  rewrite Nat2Z.inj_succ, <- Z.add_1_r, Z.add_assoc. specialize (Hs (a + Z.of_nat n)%Z). lia.
Qed.

(** ** Lists of a known length *)

(** [explode_list s] replaces a list variable [s] whose length is fixed by a
    hypothesis [length s = n] by [n] character variables. *)
Ltac explode_list s :=
  repeat match goal with
  | H : length s = O |- _ => destruct s; [clear H | discriminate H]
  | H : length s = S _ |- _ =>
      let c := fresh "c" in let s' := fresh "s" in
      destruct s as [|c s']; [discriminate H | injection H as H]; explode_list s'
  end.

Lemma take_full {A} (l : list A) n : length l = n -> take n l = l.
Proof. intros <-. apply firstn_all. Qed.

Lemma drop_full {A} (l : list A) n : length l = n -> drop n l = [].
Proof. intros <-. apply drop_all. Qed.

(** Cutting a prefix of length [a + b] in two. *)
Lemma take_take_add {A} (l : list A) a b : take a (take (a + b) l) = take a l.
Proof. rewrite take_take. f_equal. lia. Qed.

Lemma drop_take_add {A} (l : list A) a b : drop a (take (a + b) l) = take b (drop a l).
Proof. rewrite skipn_firstn_comm. f_equal. lia. Qed.

Lemma drop_add {A} (l : list A) a b : drop (a + b) l = drop b (drop a l).
Proof. by rewrite drop_drop. Qed.

#[export] Hint Rewrite @length_take @length_drop @length_app @length_map @length_seq : idcard_len.

(** A side condition on lengths: the lengths of [take], [drop], [++] and
    of string literals computed, then linear arithmetic. *)
Ltac len := autorewrite with idcard_len; cbn [length list_ascii_of_string]; lia.

(** The side conditions of the rewriting lemmas: hypotheses, arithmetic,
    lengths, and the lemmas of the [idcard] database. *)
Ltac side := solve [done | lia | len | eauto with idcard].

(** A decidable closed proposition, proved by evaluating its decision. *)
Ltac eval_decide := refine (bool_decide_eq_true_1 _ _); vm_compute; reflexivity.

(** Boolean connectives turned into propositions. *)
Ltac bool_to_prop :=
  repeat match goal with
  | H : (_ && _)%bool = true |- _ => apply andb_prop in H as [? ?]
  | |- (_ && _)%bool = true => apply andb_true_intro; split
  | H : (_ || _)%bool = false |- _ => apply orb_false_elim in H as [? ?]
  end.
