(* ===== verification/JsString.v ===== *)
(** The JavaScript runtime operations on strings and numbers that
    [src/js/idCardNoUtil.js] calls, after the ECMAScript specification:
    [String.prototype.substring], [charAt], [toUpperCase], the global
    [parseInt], the arithmetic [+], [*] and [%] on numbers that may be
    NaN, array indexing by a number, string concatenation with
    [undefined], and [==].  A string is a [list ascii]; a number that the
    class computes is an integer or NaN, so it is an [option Z] with
    [None] for NaN.  [digits_of] writes a number as a numeral of fixed
    width, the inverse of the reading [digits_val]; [number_toString]
    ([Number::toString] of an integer) and [toString_elem] ([ToString] of
    an array element, [undefined] past the end) are built on it, for the
    call [parseInt(this.powers[i])] of [getParityBit]. *)

From S2P Require Import Prelude.

Module Js.

Abbreviation jsstring := (list ascii).
Abbreviation jsnum := (option Z).

(** ** Strings *)

(** The code of a character. *)
Definition code (c : ascii) : Z := Z.of_N (N_of_ascii c).

(** [s.substring(start, end)] with non-negative integer arguments: both
    are clamped to the length, then swapped when [start > end]. *)
Definition substring (s : jsstring) (start end_ : nat) : jsstring :=
  let a := Nat.min start (length s) in
  let b := Nat.min end_ (length s) in
  take (Nat.max a b - Nat.min a b) (drop (Nat.min a b) s).

(** [s.substring(start)]: the end defaults to the length. *)
Definition substring_from (s : jsstring) (start : nat) : jsstring :=
  substring s start (length s).

(** [s.charAt(pos)]: the one-character string, or [""] out of range. *)
Definition charAt (s : jsstring) (pos : nat) : jsstring := take 1 (drop pos s).

(** [toUpperCase] on one character of the 8-bit range: [a]..[z] and the
    Latin-1 letters U+00E0..U+00FE but U+00F7 map to their capitals, 32
    code points lower.  The capitals of U+00B5 and U+00FF (U+039C and
    U+0178) lie outside the 8-bit range, so those two are kept: the
    source compares the result only with a digit or [X], which neither
    capital is. *)
Definition upper_char (c : ascii) : ascii :=
  let n := code c in
  if (97 <=? n)%Z && (n <=? 122)%Z || (224 <=? n)%Z && (n <=? 254)%Z && negb (n =? 247)%Z
  then ascii_of_N (Z.to_N (n - 32)) else c.

Definition toUpperCase (s : jsstring) : jsstring := map upper_char s.

(** [a + b] when [b] may be [undefined]: the string ["undefined"] is
    appended. *)
Definition concat_opt (s : jsstring) (o : option jsstring) : jsstring :=
  s ++ default ‹"undefined"› o.

(** [a == b] between a value that may be [undefined] and a string. *)
Definition loose_eq_opt (o : option jsstring) (t : jsstring) : bool :=
  match o with Some s => bool_decide (s = t) | None => false end.

(** ** Numbers *)

Definition num_add (a b : jsnum) : jsnum :=
  match a, b with Some x, Some y => Some (x + y)%Z | _, _ => None end.

Definition num_mul (a b : jsnum) : jsnum :=
  match a, b with Some x, Some y => Some (x * y)%Z | _, _ => None end.

(** [a % b]: the remainder has the sign of the dividend ([Z.rem]); a zero
    divisor gives NaN. *)
Definition num_rem (a b : jsnum) : jsnum :=
  match a, b with
  | Some x, Some y => if Z.eqb y 0 then None else Some (Z.rem x y)
  | _, _ => None
  end.

(** [a == b] on numbers: NaN equals nothing. *)
Definition num_eqb (a b : jsnum) : bool :=
  match a, b with Some x, Some y => Z.eqb x y | _, _ => false end.

(** [arr[n]] for a number [n]: [undefined] unless [n] is an index of the
    array (NaN names the property ["NaN"], which an array does not
    have). *)
Definition index {A} (l : list A) (n : jsnum) : option A :=
  match n with
  | Some z => if Z.leb 0 z then l !! Z.to_nat z else None
  | None => None
  end.

(** ** [parseInt(string, radix)] *)

(** The white space that [parseInt] skips (the 8-bit part of
    [StrWhiteSpaceChar]: tab, line feed, vertical tab, form feed,
    carriage return, space, no-break space). *)
Definition is_ws (c : ascii) : bool :=
  bool_decide (code c ∈ [9; 10; 11; 12; 13; 32; 160]%Z).

Fixpoint trim_start (s : jsstring) : jsstring :=
  match s with
  | c :: s' => if is_ws c then trim_start s' else s
  | [] => []
  end.

(** The value of a character as a digit of radix up to 36. *)
Definition char_value (c : ascii) : Z :=
  let n := code c in
  if (48 <=? n)%Z && (n <=? 57)%Z then n - 48
  else if (97 <=? n)%Z && (n <=? 122)%Z then n - 87
  else if (65 <=? n)%Z && (n <=? 90)%Z then n - 55
  else 99.

Fixpoint digit_prefix (R : Z) (s : jsstring) : jsstring :=
  match s with
  | c :: s' => if (char_value c <? R)%Z then c :: digit_prefix R s' else []
  | [] => []
  end.

Definition radix_value (R : Z) (ds : jsstring) : Z :=
  fold_left (fun acc c => acc * R + char_value c)%Z ds 0%Z.

(** The [0x] or [0X] prefix, removed when the radix is undefined or
    sixteen. *)
Definition hex_prefix (x y : ascii) : bool :=
  bool_decide (x = "0"%char) && (bool_decide (y = "x"%char) || bool_decide (y = "X"%char)).

(** The sign, the radix (undefined is [None]: ten, or sixteen after a
    [0x] prefix) and the longest prefix of digits; no digit is NaN. *)
Definition parseInt (s : jsstring) (radix : option Z) : jsnum :=
  let s1 := trim_start s in
  let '(sign, s2) :=
    match s1 with
    | c :: s' => if bool_decide (c = "-"%char) then (-1, s')%Z
                 else if bool_decide (c = "+"%char) then (1, s')%Z
                 else (1, s1)%Z
    | [] => (1, s1)%Z
    end in
  let R0 := default 0%Z radix in
  if negb (Z.eqb R0 0) && ((R0 <? 2)%Z || (36 <? R0)%Z) then None else
  let strip := Z.eqb R0 0 || Z.eqb R0 16 in
  let R := if Z.eqb R0 0 then 10%Z else R0 in
  let '(R, s3) :=
    match s2 with
    | x :: y :: s' => if strip && hex_prefix x y then (16%Z, s') else (R, s2)
    | _ => (R, s2)
    end in
  match digit_prefix R s3 with
  | [] => None
  | ds => Some (sign * radix_value R ds)%Z
  end.

(** ** Decimal digits *)

(** The class [\d]. *)
Definition is_digit (c : ascii) : bool :=
  let n := code c in (48 <=? n)%Z && (n <=? 57)%Z.

Definition digit_val (c : ascii) : Z := (code c - 48)%Z.

(** The decimal value of a string of digits. *)
Definition digits_val (s : jsstring) : Z :=
  fold_left (fun acc c => acc * 10 + digit_val c)%Z s 0%Z.

(** The [w]-digit decimal numeral of [n], with leading zeros: the
    inverse of [digits_val] on [0 .. 10^w - 1], used to write dates. *)
Definition digit_char (k : Z) : ascii := ascii_of_N (Z.to_N (48 + k)).

Fixpoint digits_of (w : nat) (n : Z) : jsstring :=
  match w with
  | O => []
  | S w' => digits_of w' (n / 10) ++ [digit_char (n mod 10)]
  end.

(** ** [ToString] of a number *)

(** The number of decimal digits of [n >= 0]; as many steps as [n] has
    binary digits are enough. *)
Fixpoint num_width (fuel : nat) (n : Z) : nat :=
  match fuel with
  | O => 1
  | S f => if (n <? 10)%Z then 1 else S (num_width f (n / 10))
  end.

(** [Number::toString] of an integer below [10^21]: its decimal numeral
    without leading zeros, with [-] first when it is negative. *)
Definition number_toString (z : Z) : jsstring :=
  let n := Z.abs z in
  (if (z <? 0)%Z then ‹"-"› else []) ++ digits_of (num_width (Z.to_nat (Z.log2 n + 1)) n) n.

(** [ToString] of an element of an array of numbers: past the end the
    element is [undefined] ([None]). *)
Definition toString_elem (v : option Z) : jsstring :=
  match v with Some z => number_toString z | None => ‹"undefined"› end.

(** ** Lemmas *)

Lemma substring_spec s a b :
  (a <= b <= length s)%nat -> substring s a b = take (b - a) (drop a s).
Proof.
  intros H. unfold substring.
  rewrite (Nat.min_l a), (Nat.min_l b), Nat.max_r, Nat.min_l by lia. done.
Qed.

Lemma length_substring s a b :
  (a <= b <= length s)%nat -> length (substring s a b) = (b - a)%nat.
Proof. intros H. rewrite substring_spec by done. rewrite length_take, length_drop. lia. Qed.

Lemma charAt_lookup s i c : s !! i = Some c -> charAt s i = [c].
Proof.
  revert i. induction s as [|d s IH]; intros [|i] H; simplify_eq/=; [done|].
  by apply IH.
Qed.

Lemma is_digit_range c :
  is_digit c = true -> (0 <= digit_val c <= 9)%Z /\ char_value c = digit_val c.
Proof.
  unfold is_digit, digit_val, char_value. intros H. rewrite H.
  apply andb_prop in H as [H1 H2]. apply Z.leb_le in H1, H2. lia.
Qed.

Lemma code_inj a b : code a = code b -> a = b.
Proof.
  unfold code. intros H. rewrite <- (ascii_N_embedding a), <- (ascii_N_embedding b).
  f_equal. lia.
Qed.

Lemma digit_val_inj a b : digit_val a = digit_val b -> a = b.
Proof. unfold digit_val. intros H. apply code_inj. lia. Qed.

Lemma upper_char_digit c : is_digit c = true -> upper_char c = c.
Proof.
  revert c. assert (H : forall c, implb (is_digit c) (upper_char c =? c)%char = true).
  { apply forall_ascii. vm_compute. reflexivity. }
  intros c Hc. specialize (H c). rewrite Hc in H. by apply Ascii.eqb_eq.
Qed.

Lemma digit_prefix_digits R s :
  (10 <= R)%Z -> forallb is_digit s = true -> digit_prefix R s = s.
Proof.
  intros HR. induction s as [|c s IH]; intros H; [done|].
  simpl in H. apply andb_prop in H as [Hc Hs]. simpl.
  destruct (is_digit_range c Hc) as [Hr ->].
  destruct (Z.ltb_spec (digit_val c) R); [|lia]. by rewrite IH.
Qed.

Lemma radix_value_digits s :
  forallb is_digit s = true -> radix_value 10 s = digits_val s.
Proof.
  unfold radix_value, digits_val. generalize 0%Z.
  induction s as [|c s IH]; intros acc H; [done|].
  simpl in H. apply andb_prop in H as [Hc Hs]. simpl.
  rewrite (proj2 (is_digit_range c Hc)). by apply IH.
Qed.

Lemma is_digit_not_ws c : is_digit c = true -> is_ws c = false.
Proof.
  unfold is_digit, is_ws. intros H. apply andb_prop in H as [H1 H2].
  apply Z.leb_le in H1, H2. apply bool_decide_eq_false.
  intros Hin. apply list_elem_of_In in Hin. simpl in Hin. lia.
Qed.

Lemma is_digit_not_sign c :
  is_digit c = true -> bool_decide (c = "-"%char) = false /\ bool_decide (c = "+"%char) = false.
Proof. intros H. split; apply bool_decide_eq_false; intros ->; discriminate H. Qed.

Lemma is_digit_not_hex x y : is_digit y = true -> hex_prefix x y = false.
Proof.
  intros H. unfold hex_prefix. apply andb_false_intro2.
  apply orb_false_intro; apply bool_decide_eq_false; intros ->; discriminate H.
Qed.

(** [parseInt] of a non-empty string of decimal digits, in radix ten or
    with the radix left undefined, is its decimal value. *)
Lemma parseInt_digits s radix :
  radix = None \/ radix = Some 10%Z ->
  s <> [] -> forallb is_digit s = true -> parseInt s radix = Some (digits_val s).
Proof.
  intros Hr Hne Hd. destruct s as [|c s']; [done|].
  pose proof Hd as Hd'. simpl in Hd'. apply andb_prop in Hd' as [Hc Hs].
  destruct (is_digit_not_sign c Hc) as [Hm Hp].
  unfold parseInt. simpl. rewrite is_digit_not_ws, Hm, Hp by done.
  assert (Hdp : forall R, (10 <= R)%Z -> digit_prefix R (c :: s') = c :: s')
    by (intros; apply digit_prefix_digits; done).
  destruct Hr as [-> | ->]; simpl;
    (destruct s' as [|y s'']; [|simpl in Hs; apply andb_prop in Hs as [Hy _];
       rewrite ?is_digit_not_hex by done]);
    rewrite Hdp by lia; rewrite radix_value_digits by done;
    destruct (digits_val _); reflexivity.
Qed.

Lemma digits_val_acc t a :
  fold_left (fun acc c => acc * 10 + digit_val c)%Z t a =
  (a * 10 ^ Z.of_nat (length t) + digits_val t)%Z.
Proof.
  unfold digits_val. revert a. induction t as [|c t IH]; intros a; simpl; [lia|].
  rewrite (IH (a * 10 + digit_val c)%Z), (IH (0 * 10 + digit_val c)%Z).
  rewrite Nat2Z.inj_succ, Z.pow_succ_r by lia. ring.
Qed.

Lemma digits_val_app s t :
  digits_val (s ++ t) = (digits_val s * 10 ^ Z.of_nat (length t) + digits_val t)%Z.
Proof. unfold digits_val at 1. rewrite fold_left_app. apply digits_val_acc. Qed.


Lemma digits_val_bound s :
  forallb is_digit s = true -> (0 <= digits_val s < 10 ^ Z.of_nat (length s))%Z.
Proof.
  induction s as [|c s IH] using rev_ind; intros H; [cbn; lia|].
  rewrite forallb_app in H. apply andb_prop in H as [Hs Hc]. simpl in Hc.
  apply andb_prop in Hc as [Hc _]. destruct (is_digit_range c Hc) as [Hr _].
  rewrite digits_val_app, length_app. simpl.
  rewrite Nat2Z.inj_add, Z.pow_add_r by lia.
  specialize (IH Hs). change (digits_val [c]) with (0 * 10 + digit_val c)%Z. lia.
Qed.


Lemma digits_val_cons c w :
  digits_val (c :: w) = (digit_val c * 10 ^ Z.of_nat (length w) + digits_val w)%Z.
Proof. apply (digits_val_app [c] w). Qed.

Lemma forallb_take {A} (f : A -> bool) l n : forallb f l = true -> forallb f (take n l) = true.
Proof.
  rewrite !forallb_forall. intros H x Hx. apply H.
  eapply list_elem_of_In, subseteq_take, list_elem_of_In, Hx.
Qed.

Lemma forallb_drop {A} (f : A -> bool) l n : forallb f l = true -> forallb f (drop n l) = true.
Proof.
  rewrite !forallb_forall. intros H x Hx. apply H.
  eapply list_elem_of_In, subseteq_drop, list_elem_of_In, Hx.
Qed.

#[export] Hint Resolve forallb_take forallb_drop : idcard.

Lemma digit_val_zero c : is_digit c = true -> (digit_val c = 0)%Z <-> c = "0"%char.
Proof.
  intros H. split; [|by intros ->]. intros E. apply digit_val_inj. by rewrite E.
Qed.

(** An array read gives an element of the array, or [undefined]. *)
Lemma digit_char_ok k : (0 <= k < 10)%Z -> is_digit (digit_char k) = true /\ digit_val (digit_char k) = k.
Proof.
  intros Hk. pose proof (forall_Z_range (fun k => is_digit (digit_char k) && Z.eqb (digit_val (digit_char k)) k)
    0 10 ltac:(vm_compute; reflexivity) k ltac:(lia)) as H.
  apply andb_prop in H as [? ?%Z.eqb_eq]. done.
Qed.

Lemma length_digits_of w n : length (digits_of w n) = w.
Proof. revert n. induction w as [|w IH]; intros n; [done|]. simpl. rewrite length_app, IH. simpl. lia. Qed.

Lemma digits_of_digits w n : forallb is_digit (digits_of w n) = true.
Proof.
  revert n. induction w as [|w IH]; intros n; [done|]. simpl. rewrite forallb_app, IH. simpl.
  by rewrite (proj1 (digit_char_ok _ (Z.mod_pos_bound n 10 ltac:(lia)))).
Qed.

Lemma digits_val_digits_of w n : digits_val (digits_of w n) = (n mod 10 ^ Z.of_nat w)%Z.
Proof.
  revert n. induction w as [|w IH]; intros n; simpl; [by rewrite Z.mod_1_r|].
  rewrite digits_val_app, IH.
  change (digits_val [?c]) with (0 * 10 + digit_val c)%Z. rewrite (proj2 (digit_char_ok _ (Z.mod_pos_bound n 10 ltac:(lia)))).
  rewrite Nat2Z.inj_succ, Z.pow_succ_r by lia.
  assert (HP : (0 < 10 ^ Z.of_nat w)%Z) by (apply Z.pow_pos_nonneg; lia).
  generalize dependent (10 ^ Z.of_nat w)%Z. intros P _ HP. cbn.
  pose proof (Z.mod_pos_bound (n / 10) P HP). pose proof (Z.mod_pos_bound n 10 ltac:(lia)).
  change (10 ^ Z.of_nat 1)%Z with 10%Z. apply (Z.mod_unique _ _ (n / 10 / P)); [lia|].
  rewrite (Z.div_mod n 10) at 1 by lia. rewrite (Z.div_mod (n / 10) P) at 1 by lia. ring.
Qed.

#[export] Hint Rewrite length_digits_of : idcard_len.
End Js.
