(* ===== verification/Regex.v ===== *)
(** [RegExp.prototype.test] for the regular expressions that
    [src/js/idCardNoUtil.js] writes: character classes, concatenation,
    alternation [|], the exact repetition [{n}], and the assertions [^]
    and [$], without flags.  The matcher follows the ECMAScript
    specification (22.2.2): a pattern denotes a function from a position
    and a continuation to a result, alternation tries the left branch and
    then the right one, and [test] tries every start position from 0 to
    the length.  Groups only capture, and captures do not change the
    boolean [test] returns, so a group is its body here.

    The matcher is proved to implement a declarative semantics, the
    inductive relation [lmatch] ([match_re_lmatch], [test_lmatch]).  The
    lemmas then characterise the patterns of fixed width (every branch of
    an alternation has the same width, no assertion inside): such a
    pattern matches exactly the next [width r] characters when [accepts]
    holds of them. *)

From Stdlib Require Import Btauto.
From S2P Require Import Prelude JsString.
Import Js.

Module Regex.

(** The character classes the source writes: [\d], [[lo-hi]] and a
    literal character. *)
Inductive cls := CDigit | CRange (lo hi : ascii) | CChar (c : ascii).

Definition cls_match (k : cls) (x : ascii) : bool :=
  match k with
  | CDigit => is_digit x
  | CRange lo hi => (code lo <=? code x)%Z && (code x <=? code hi)%Z
  | CChar c => (x =? c)%char
  end.
Arguments cls_match : simpl never.

Inductive regex :=
| REps                        (** the empty pattern *)
| RClass (k : cls)            (** one character of a class *)
| RSeq (r1 r2 : regex)        (** [r1 r2] *)
| RAlt (r1 r2 : regex)        (** [r1|r2] *)
| RRep (n : nat) (r : regex)  (** [r{n}] *)
| RBol                        (** [^] *)
| REol.                       (** [$] *)

(** A literal character, a range [[lo-hi]], and [\d]. *)
Definition chr (c : ascii) : regex := RClass (CChar c).
Definition range (lo hi : ascii) : regex := RClass (CRange lo hi).
Definition digit : regex := RClass CDigit.

(** A concatenation of several terms. *)
Fixpoint rcat (rs : list regex) : regex :=
  match rs with [] => REps | r :: rs => RSeq r (rcat rs) end.

(** The repeat matcher of [r{n}]: [m] matches [r] once. *)
Fixpoint rep_match (m : nat -> jsstring -> (nat -> jsstring -> bool) -> bool)
    (n : nat) (i : nat) (s : jsstring) (k : nat -> jsstring -> bool) : bool :=
  match n with
  | O => k i s
  | S n' => m i s (fun i' s' => rep_match m n' i' s' k)
  end.

(** The matcher: [i] is the position in the input, [s] the input from
    [i] on, [k] the continuation. *)
Fixpoint match_re (r : regex) (i : nat) (s : jsstring)
    (k : nat -> jsstring -> bool) {struct r} : bool :=
  match r with
  | REps => k i s
  | RClass p => match s with c :: s' => cls_match p c && k (S i) s' | [] => false end
  | RSeq r1 r2 => match_re r1 i s (fun i' s' => match_re r2 i' s' k)
  | RAlt r1 r2 => match_re r1 i s k || match_re r2 i s k
  | RRep n r1 => rep_match (match_re r1) n i s k
  | RBol => Nat.eqb i 0 && k i s
  | REol => match s with [] => k i s | _ => false end
  end.

(** [RegExpBuiltinExec] without the global and sticky flags: a match is
    tried at every index from [i] to the end of the input. *)
Fixpoint search (r : regex) (i : nat) (s : jsstring) : bool :=
  match_re r i s (fun _ _ => true) ||
  match s with [] => false | _ :: s' => search r (S i) s' end.

Definition test (r : regex) (s : jsstring) : bool := search r 0 s.

(** ** Patterns of fixed width *)

Fixpoint width (r : regex) : nat :=
  match r with
  | REps | RBol | REol => 0
  | RClass _ => 1
  | RSeq r1 r2 => width r1 + width r2
  | RAlt r1 _ => width r1
  | RRep n r1 => n * width r1
  end.

Fixpoint fixed (r : regex) : bool :=
  match r with
  | REps | RClass _ => true
  | RSeq r1 r2 => fixed r1 && fixed r2
  | RAlt r1 r2 => fixed r1 && fixed r2 && Nat.eqb (width r1) (width r2)
  | RRep _ r1 => fixed r1
  | RBol | REol => false
  end.

(** The words of [n] consecutive pieces of width [u], each in [a]. *)
Fixpoint rep_accepts (a : jsstring -> bool) (u : nat) (n : nat) (w : jsstring) : bool :=
  match n with
  | O => match w with [] => true | _ => false end
  | S n' => a (take u w) && rep_accepts a u n' (drop u w)
  end.

(** The words a fixed-width pattern matches. *)
Fixpoint accepts (r : regex) (w : jsstring) : bool :=
  match r with
  | REps => match w with [] => true | _ => false end
  | RClass p => match w with [c] => cls_match p c | _ => false end
  | RSeq r1 r2 => accepts r1 (take (width r1) w) && accepts r2 (drop (width r1) w)
  | RAlt r1 r2 => accepts r1 w || accepts r2 w
  | RRep n r1 => rep_accepts (accepts r1) (width r1) n w
  | RBol | REol => false
  end.

(** [^p$]. *)
Definition anchored (p : regex) : regex := rcat [RBol; p; REol].

(** The declarative semantics: [lmatch s r i j] when [r] matches the
    characters [i .. j) of the input [s]; [^] holds at 0 and [$] at the
    end. *)
Inductive lmatch (s : jsstring) : regex -> nat -> nat -> Prop :=
  | LEps i : lmatch s REps i i
  | LClass k i c : s !! i = Some c -> cls_match k c = true -> lmatch s (RClass k) i (S i)
  | LSeq r1 r2 i j l : lmatch s r1 i j -> lmatch s r2 j l -> lmatch s (RSeq r1 r2) i l
  | LAltL r1 r2 i j : lmatch s r1 i j -> lmatch s (RAlt r1 r2) i j
  | LAltR r1 r2 i j : lmatch s r2 i j -> lmatch s (RAlt r1 r2) i j
  | LRep0 r i : lmatch s (RRep 0 r) i i
  | LRepS n r i j l : lmatch s r i j -> lmatch s (RRep n r) j l -> lmatch s (RRep (S n) r) i l
  | LBol : lmatch s RBol 0 0
  | LEol : lmatch s REol (length s) (length s).

(** ** Lemmas *)

Lemma rep_accepts_length a u n w :
  (forall v, a v = true -> length v = u) ->
  rep_accepts a u n w = true -> length w = n * u.
Proof.
  intros Ha. revert w. induction n as [|n IH]; intros w H; simpl in H.
  - by destruct w.
  - apply andb_prop in H as [H1 H2]. apply Ha in H1. apply IH in H2.
    rewrite length_take in H1. rewrite length_drop in H2. simpl. lia.
Qed.

(** A word accepted by a fixed-width pattern has its width. *)
Lemma accepts_length r w : fixed r = true -> accepts r w = true -> length w = width r.
Proof.
  revert w. induction r as [| p | r1 IH1 r2 IH2 | r1 IH1 r2 IH2 | n r1 IH | |];
    simpl; intros w Hf H; try discriminate.
  - by destruct w.
  - by destruct w as [|c [|]].
  - apply andb_prop in Hf as [Hf1 Hf2]. apply andb_prop in H as [H1 H2].
    apply IH1 in H1; [|done]. apply IH2 in H2; [|done].
    rewrite length_take in H1. rewrite length_drop in H2. lia.
  - apply andb_prop in Hf as [Hf Hw]. apply andb_prop in Hf as [Hf1 Hf2].
    apply Nat.eqb_eq in Hw. apply orb_prop in H as [H|H]; [by apply IH1 | ].
    rewrite Hw. by apply IH2.
  - eapply rep_accepts_length; [|exact H]. intros v. by apply IH.
Qed.

Lemma rep_match_fixed m a u n :
  (forall i s k, m i s k = a (take u s) && k (i + u) (drop u s)) ->
  forall i s k, rep_match m n i s k =
    rep_accepts a u n (take (n * u) s) && k (i + n * u) (drop (n * u) s).
Proof.
  intros Hm. induction n as [|n IH]; intros i s k; simpl.
  - by rewrite Nat.add_0_r.
  - rewrite Hm, IH, take_take_add, drop_take_add, <- drop_add, Nat.add_assoc.
    apply andb_assoc.
Qed.

(** A fixed-width pattern matches the next [width r] characters exactly
    when they are accepted, and then passes the rest to the
    continuation. *)
Lemma match_fixed r :
  fixed r = true -> forall i s k,
  match_re r i s k = accepts r (take (width r) s) && k (i + width r) (drop (width r) s).
Proof.
  induction r as [| p | r1 IH1 r2 IH2 | r1 IH1 r2 IH2 | n r1 IH | |];
    simpl; intros Hf i s k; try discriminate.
  - by rewrite Nat.add_0_r.
  - destruct s as [|c s]; [done|]. by rewrite Nat.add_1_r.
  - apply andb_prop in Hf as [Hf1 Hf2]. rewrite IH1 by done. rewrite IH2 by done.
    rewrite take_take_add, drop_take_add, <- drop_add, Nat.add_assoc.
    apply andb_assoc.
  - apply andb_prop in Hf as [Hf Hw]. apply andb_prop in Hf as [Hf1 Hf2].
    apply Nat.eqb_eq in Hw. rewrite IH1, IH2, <- Hw by done.
    by rewrite andb_orb_distrib_l.
  - by apply rep_match_fixed, IH.
Qed.

Lemma accepts_take r w :
  fixed r = true -> accepts r (take (width r) w) = true -> (width r <= length w)%nat.
Proof. intros Hf H. apply accepts_length in H; [|done]. rewrite length_take in H. lia. Qed.

(** No match of a pattern that starts with [^] begins after position 0. *)
Lemma search_bol r i s : search (RSeq RBol r) (S i) s = false.
Proof. revert i. induction s as [|c s IH]; intros i; simpl; [done|]. apply IH. Qed.

Lemma search_alt r1 r2 i s : search (RAlt r1 r2) i s = search r1 i s || search r2 i s.
Proof.
  revert i. induction s as [|c s IH]; intros i; simpl.
  - by rewrite !orb_false_r.
  - rewrite IH. destruct (match_re r1 _ _ _), (match_re r2 _ _ _),
      (search r1 _ _), (search r2 _ _); reflexivity.
Qed.

Lemma test_bol_any r s : test (RSeq RBol r) s = match_re r 0 s (fun _ _ => true).
Proof. unfold test. destruct s; simpl; rewrite ?search_bol; apply orb_false_r. Qed.

(** [^p]: the first [width p] characters are accepted. *)
Lemma test_bol p s :
  fixed p = true -> test (RSeq RBol p) s = accepts p (take (width p) s).
Proof. intros Hf. rewrite test_bol_any, match_fixed by done. apply andb_true_r. Qed.

Lemma drop_cons_neq {A} (l : list A) n : (n < length l)%nat -> exists x l', drop n l = x :: l'.
Proof.
  intros H. destruct (drop n l) as [|x l'] eqn:Hd; [|eauto].
  apply (f_equal length) in Hd. rewrite length_drop in Hd. simpl in Hd. lia.
Qed.

(** [^p$]: the whole input is accepted. *)
Lemma test_anchored p s :
  fixed p = true ->
  test (anchored p) s = Nat.eqb (length s) (width p) && accepts p s.
Proof.
  intros Hf. unfold anchored. simpl. rewrite test_bol_any. simpl.
  rewrite match_fixed by done. simpl.
  destruct (Nat.eqb_spec (length s) (width p)) as [Heq|Hne].
  - by rewrite take_full, drop_full, andb_true_r.
  - destruct (accepts p (take _ _)) eqn:E; [|done].
    apply accepts_take in E; [|done].
    destruct (drop_cons_neq s (width p)) as (x & l' & ->); [lia|done].
Qed.

(** [\d{n}] accepts the strings of [n] digits. *)
Lemma accepts_digits n w :
  accepts (RRep n digit) w = Nat.eqb (length w) n && forallb is_digit w.
Proof.
  simpl. revert w. induction n as [|n IH]; intros [|c w]; simpl; try reflexivity.
  rewrite drop_0, IH. unfold cls_match. btauto.
Qed.

(** ** The matcher implements the declarative semantics *)

Lemma lmatch_bound s r i j : lmatch s r i j -> (i <= length s)%nat -> (i <= j <= length s)%nat.
Proof.
  induction 1; intros Hi; try (apply lookup_lt_Some in H; lia); auto; try lia.
  all: specialize (IHlmatch1 Hi); specialize (IHlmatch2 ltac:(lia)); lia.
Qed.

Lemma match_rep_lmatch s r n :
  (forall i k, (i <= length s)%nat ->
     match_re r i (drop i s) k = true <-> exists j, lmatch s r i j /\ k j (drop j s) = true) ->
  forall i k, (i <= length s)%nat ->
  rep_match (match_re r) n i (drop i s) k = true <->
  exists j, lmatch s (RRep n r) i j /\ k j (drop j s) = true.
Proof.
  intros IH. induction n as [|n IHn]; intros i k Hi; simpl.
  - split; [intros Hk; exists i; split; [constructor|done]|].
    intros (j & Hm & Hk). inversion Hm; subst. done.
  - rewrite IH by done. split.
    + intros (j & H1 & H2). pose proof (lmatch_bound _ _ _ _ H1 Hi).
      apply IHn in H2 as (l & H2 & Hk); [|lia]. exists l. split; [by econstructor|done].
    + intros (l & Hm & Hk). inversion Hm as [| | | | | |? ? ? j ? Hm1 Hm2| |]; subst. exists j.
      split; [done|]. pose proof (lmatch_bound _ _ _ _ Hm1 Hi). apply IHn; [lia|]. by exists l.
Qed.

(** The continuation-passing matcher, from position [i], succeeds
    exactly when [r] matches some [i .. j) whose continuation succeeds. *)
Lemma match_re_lmatch s r : forall i k,
  (i <= length s)%nat ->
  match_re r i (drop i s) k = true <-> exists j, lmatch s r i j /\ k j (drop j s) = true.
Proof.
  induction r as [|kc|r1 IH1 r2 IH2|r1 IH1 r2 IH2|n r IH| |]; intros i k Hi; simpl.
  - split; [intros H; exists i; split; [constructor|done]|].
    intros (j & Hm & Hk). inversion Hm; subst. done.
  - destruct (s !! i) as [c|] eqn:Hc.
    + rewrite (drop_S _ _ _ Hc). split.
      * intros [Hk Hk']%andb_prop. exists (S i). split; [by econstructor|done].
      * intros (j & Hm & Hk). inversion Hm as [|? ? c' Hc' Hk'| | | | | | |]; subst.
        rewrite Hc in Hc'. injection Hc' as <-. by rewrite Hk', Hk.
    + rewrite drop_ge by (by apply lookup_ge_None). split; [done|].
      intros (j & Hm & _). inversion Hm; subst. congruence.
  - rewrite IH1 by done. split.
    + intros (j & H1 & H2). pose proof (lmatch_bound _ _ _ _ H1 Hi).
      apply IH2 in H2 as (l & H2 & Hk); [|lia]. exists l. split; [by econstructor|done].
    + intros (l & Hm & Hk). inversion Hm as [| |? ? ? j ? Hm1 Hm2| | | | | |]; subst. exists j.
      split; [done|]. pose proof (lmatch_bound _ _ _ _ Hm1 Hi). apply IH2; [lia|]. by exists l.
  - rewrite orb_true_iff, IH1, IH2 by done. split.
    + intros [(j & ? & ?)|(j & ? & ?)]; exists j; (split; [by constructor|done]).
    + intros (j & Hm & ?). inversion Hm; subst; [left|right]; by exists j.
  - by apply match_rep_lmatch.
  - split; [intros [Hi0%Nat.eqb_eq Hk]%andb_prop; subst; exists 0%nat; split; [constructor|done]|].
    intros (j & Hm & Hk). inversion Hm; subst. by rewrite Hk.
  - destruct (drop i s) as [|c s'] eqn:E.
    + assert (i = length s) by (apply (f_equal length) in E; rewrite length_drop in E; simpl in E; lia). subst.
      split; [intros Hk; exists (length s); split; [constructor|by rewrite E]|].
      intros (j & Hm & Hk). inversion Hm; subst. by rewrite E in Hk.
    + split; [done|]. intros (j & Hm & _). inversion Hm; subst. by rewrite drop_all in E.
Qed.

Lemma search_lmatch s r n : forall i,
  (i + n = length s)%nat ->
  search r i (drop i s) = true <-> exists i' j, (i <= i' <= length s)%nat /\ lmatch s r i' j.
Proof.
  induction n as [|n IHn]; intros i Hn.
  - pose proof (match_re_lmatch s r i (fun _ _ => true) ltac:(lia)) as H.
    rewrite drop_ge in H |- * by lia. cbn [search]. rewrite orb_false_r, H. split.
    + intros (j & Hm & _). exists i, j. split; [lia|done].
    + intros (i' & j & Hi & Hm). replace i' with i in Hm by lia. by exists j.
  - destruct (lookup_lt_is_Some_2 s i) as [c Hc]; [lia|].
    pose proof (match_re_lmatch s r i (fun _ _ => true) ltac:(lia)) as H.
    rewrite (drop_S _ _ _ Hc) in H |- *. cbn [search]. rewrite orb_true_iff, H, IHn by lia. split.
    + intros [(j & Hm & _)|(i' & j & Hi & Hm)]; [exists i, j; split; [lia|done]|].
      exists i', j. split; [lia|done].
    + intros (i' & j & Hi & Hm). destruct (decide (i' = i)) as [->|Hne]; [left; by exists j|].
      right. exists i', j. split; [lia|done].
Qed.

(** [test r s] holds exactly when [r] matches the characters [i .. j) of
    [s] for some start [i] in the input. *)
Theorem test_lmatch r s : test r s = true <-> exists i j, (i <= length s)%nat /\ lmatch s r i j.
Proof.
  unfold test. rewrite <- (drop_0 s) at 1. rewrite (search_lmatch s r (length s) 0) by lia.
  split; intros (i & j & Hi & Hm); exists i, j; split; (done || lia).
Qed.

End Regex.
