(* ===== verification/JsDate.v ===== *)
(** The part of the JavaScript [Date] that [checkBirthDayCode] uses:
    [new Date(y, m, d)] (ECMAScript [MakeDay]: the month is carried into
    the year, and the day [d] counts from the first of the month, so a
    day past the end of the month overflows into the next months),
    [getFullYear], [getMonth], [getDate], and the comparison of two dates
    by [>].  The calendar is the proleptic Gregorian one of the
    specification.  A date is kept as its local fields; local time is a
    uniform clock (no time zone, no daylight saving), under which the
    order of the time values is the lexicographic order of the fields.
    [TimeClip] (years beyond 275760) is not modelled: the dates the
    source builds, from four-digit years, are proved to lie within its
    range.  The day iteration [add_days] runs on fuel, proved enough for
    every argument. *)

From S2P Require Import Prelude.

Module JsDate.

Local Open Scope Z_scope.

(** A [Date]: year, month from 0, day of the month from 1, and the
    milliseconds since local midnight. *)
Record date := mkDate { year : Z; month : Z; day : Z; ms : Z }.

Definition leap (y : Z) : bool :=
  (Z.eqb (y mod 4) 0 && negb (Z.eqb (y mod 100) 0)) || Z.eqb (y mod 400) 0.

(** [DaysInMonth] for the month [m] (from 0) of year [y]. *)
Definition days_in_month (y m : Z) : Z :=
  if Z.eqb m 1 then (if leap y then 29 else 28)
  else if Z.eqb m 3 || Z.eqb m 5 || Z.eqb m 8 || Z.eqb m 10 then 30
  else 31.

(** The fields of a calendar day. *)
Definition valid_ymd (y m d : Z) : bool :=
  (0 <=? m) && (m <=? 11) && (1 <=? d) && (d <=? days_in_month y m).

Definition next_month (y m : Z) : Z * Z := if Z.eqb m 11 then (y + 1, 0) else (y, m + 1).
Definition prev_month (y m : Z) : Z * Z := if Z.eqb m 0 then (y - 1, 11) else (y, m - 1).

(** The day [k] days after [(y, m, d)]: each step crosses one month
    boundary, forwards or backwards, and consumes at least one day of
    [k], so [|k| + 1] steps are enough ([add_days_valid]). *)
Fixpoint add_days (fuel : nat) (y m d k : Z) : Z * Z * Z :=
  match fuel with
  | O => (y, m, d + k)
  | S f =>
      if (1 <=? d + k) && (d + k <=? days_in_month y m) then (y, m, d + k)
      else if 0 <? k then
        let '(y', m') := next_month y m in
        add_days f y' m' 1 (k - (days_in_month y m - d + 1))
      else
        let '(y', m') := prev_month y m in
        add_days f y' m' (days_in_month y' m') (k + d)
  end.

(** [new Date(y, m, d)]: a year from 0 to 99 means 1900 to 1999; then
    [MakeDay]: the first of month [m mod 12] of year [y + m / 12], plus
    [d - 1] days; the time is midnight. *)
Definition new_Date (y m d : Z) : date :=
  let yr := if (0 <=? y) && (y <=? 99) then 1900 + y else y in
  let ym := yr + m / 12 in
  let mn := m mod 12 in
  let '(y', m', d') := add_days (S (Z.to_nat (Z.abs (d - 1)))) ym mn 1 (d - 1) in
  mkDate y' m' d' 0.

Definition getFullYear (t : date) : Z := year t.
Definition getMonth (t : date) : Z := month t.
Definition getDate (t : date) : Z := day t.

(** [a > b] on two dates: their time values compared. *)
Definition date_gt (a b : date) : bool :=
  (year b <? year a) ||
  (Z.eqb (year a) (year b) &&
   ((month b <? month a) ||
    (Z.eqb (month a) (month b) &&
     ((day b <? day a) || (Z.eqb (day a) (day b) && (ms b <? ms a)))))).

(** A clock reading: valid fields and a time of day. *)
Definition valid_date (t : date) : bool :=
  valid_ymd (year t) (month t) (day t) && (0 <=? ms t) && (ms t <? 86400000).

(** The calendar day [(y, m, d)] is not after the day of [t]. *)
Definition ymd_le (y m d : Z) (t : date) : bool :=
  (y <? year t) || (Z.eqb y (year t) &&
    ((m <? month t) || (Z.eqb m (month t) && (d <=? day t)))).

(** The days from the first day of year 0 to the first day of year [y]
    (the leap years before [y] counted with floor division). *)
Definition days_before_year (y : Z) : Z :=
  365 * y + (y + 3) / 4 - (y + 99) / 100 + (y + 399) / 400.

(** [DaysInYear]. *)
Definition days_in_year (y : Z) : Z := if leap y then 366 else 365.

(** The days of the months of year [y] before month [m]. *)
Definition days_before_month (y m : Z) : Z :=
  fold_left (fun acc k => acc + days_in_month y (Z.of_nat k)) (seq 0 (Z.to_nat m)) 0.

(** The day number of [(y, m, d)], from the first day of year 0:
    ECMAScript's [Day(t)] up to the constant offset of the epoch. *)
Definition day_number (y m d : Z) : Z := days_before_year y + days_before_month y m + (d - 1).

(** [msPerDay]. *)
Definition ms_per_day : Z := 86400000.

(** The time value of a date, counted from the first day of year 0. *)
Definition time_value (t : date) : Z := day_number (year t) (month t) (day t) * ms_per_day + ms t.

(** ** Lemmas *)

Lemma days_in_month_bounds y m : 28 <= days_in_month y m <= 31.
Proof.
  unfold days_in_month.
  destruct (Z.eqb m 1), (leap y), (Z.eqb m 3 || Z.eqb m 5 || Z.eqb m 8 || Z.eqb m 10)%bool; lia.
Qed.

Lemma valid_ymd_spec y m d :
  valid_ymd y m d = true <-> 0 <= m <= 11 /\ 1 <= d <= days_in_month y m.
Proof.
  unfold valid_ymd. rewrite !andb_true_iff, !Z.leb_le. tauto.
Qed.

Lemma next_month_valid y m y' m' :
  0 <= m <= 11 -> next_month y m = (y', m') -> 0 <= m' <= 11.
Proof. unfold next_month. destruct (Z.eqb_spec m 11); intros ? [= <- <-]; lia. Qed.

Lemma prev_month_valid y m y' m' :
  0 <= m <= 11 -> prev_month y m = (y', m') -> 0 <= m' <= 11.
Proof. unfold prev_month. destruct (Z.eqb_spec m 0); intros ? [= <- <-]; lia. Qed.

Lemma days_before_year_succ y : days_before_year (y + 1) = days_before_year y + days_in_year y.
Proof.
  unfold days_before_year, days_in_year, leap.
  destruct (Z.eqb_spec (y mod 4) 0), (Z.eqb_spec (y mod 100) 0), (Z.eqb_spec (y mod 400) 0); simpl; Z.to_euclidean_division_equations; lia.
Qed.

Lemma days_before_month_succ y m :
  0 <= m -> days_before_month y (m + 1) = days_before_month y m + days_in_month y m.
Proof.
  intros Hm. unfold days_before_month. rewrite Z2Nat.inj_add, Nat.add_1_r, seq_S, fold_left_app by lia.
  simpl. by rewrite Z2Nat.id by lia.
Qed.

Lemma days_before_month_12 y : days_before_month y 12 = days_in_year y.
Proof. unfold days_before_month, days_in_year, days_in_month. simpl. by destruct (leap y). Qed.

Lemma day_number_next y m y' m' :
  0 <= m <= 11 -> next_month y m = (y', m') ->
  day_number y' m' 1 = day_number y m (days_in_month y m) + 1.
Proof.
  unfold next_month, day_number. intros Hm.
  destruct (Z.eqb_spec m 11) as [->|]; intros [= <- <-].
  - pose proof (days_before_month_succ y 11 ltac:(lia)) as H11.
    change (11 + 1) with 12 in H11. rewrite days_before_month_12 in H11.
    rewrite days_before_year_succ. change (days_before_month (y + 1) 0) with 0. lia.
  - rewrite days_before_month_succ by lia. lia.
Qed.

Lemma day_number_prev y m y' m' :
  0 <= m <= 11 -> prev_month y m = (y', m') ->
  day_number y' m' (days_in_month y' m') = day_number y m 1 - 1.
Proof.
  unfold prev_month, day_number. intros Hm.
  destruct (Z.eqb_spec m 0) as [->|]; intros [= <- <-].
  - pose proof (days_before_year_succ (y - 1)) as H. replace (y - 1 + 1) with y in H by lia.
    pose proof (days_before_month_succ (y - 1) 11 ltac:(lia)) as H11.
    change (11 + 1) with 12 in H11. rewrite days_before_month_12 in H11.
    change (days_before_month y 0) with 0. lia.
  - replace m with (m - 1 + 1) at 3 by lia. rewrite days_before_month_succ by lia. lia.
Qed.

(** One step of [add_days] from a calendar day: either the day stays in
    its month, or the recursive call starts from a calendar day, with a
    smaller count [|k'| < |k|] and the same target day number. *)
Lemma add_days_step y m d k :
  valid_ymd y m d = true ->
  (1 <= d + k <= days_in_month y m /\ forall f, add_days (S f) y m d k = (y, m, d + k)) \/
  (exists y' m' d' k', valid_ymd y' m' d' = true /\ Z.abs k' < Z.abs k /\
     day_number y' m' d' + k' = day_number y m d + k /\
     forall f, add_days (S f) y m d k = add_days f y' m' d' k').
Proof.
  intros Hv. apply valid_ymd_spec in Hv as [Hm Hd]. cbn [add_days].
  destruct ((1 <=? d + k) && (d + k <=? days_in_month y m)) eqn:Hin.
  { left. apply andb_prop in Hin as [H1 H2]. apply Z.leb_le in H1, H2. split; [lia|done]. }
  right. assert (Hout : d + k < 1 \/ days_in_month y m < d + k).
  { destruct (Z.leb_spec 1 (d + k)), (Z.leb_spec (d + k) (days_in_month y m));
      simpl in Hin; try discriminate; lia. }
  destruct (Z.ltb_spec 0 k).
  - destruct (next_month y m) as [y' m'] eqn:E. pose proof (day_number_next _ _ _ _ Hm E).
    apply next_month_valid in E; [|lia]. pose proof (days_in_month_bounds y' m').
    exists y', m', 1, (k - (days_in_month y m - d + 1)).
    split; [apply valid_ymd_spec; lia|]. split; [lia|]. split; [unfold day_number in *; lia|done].
  - destruct (prev_month y m) as [y' m'] eqn:E. pose proof (day_number_prev _ _ _ _ Hm E).
    apply prev_month_valid in E; [|lia]. pose proof (days_in_month_bounds y' m').
    exists y', m', (days_in_month y' m'), (k + d).
    split; [apply valid_ymd_spec; lia|]. split; [lia|]. split; [unfold day_number in *; lia|done].
Qed.

(** More than [|k|] steps of fuel always reach a calendar day: the fuel
    bound of [new_Date] is enough. *)
Lemma add_days_valid fuel y m d k :
  valid_ymd y m d = true -> (Z.abs_nat k < fuel)%nat ->
  let '(y', m', d') := add_days fuel y m d k in valid_ymd y' m' d' = true.
Proof.
  revert y m d k. induction fuel as [|f IH]; intros y m d k Hv Hf; [lia|].
  pose proof Hv as Hv0. apply valid_ymd_spec in Hv0.
  destruct (add_days_step y m d k Hv) as [[Hr ->]|(y' & m' & d' & k' & Hv' & Hk & _ & ->)].
  - apply valid_ymd_spec. lia.
  - apply IH; [done|lia].
Qed.

(** [add_days] moves the day number by exactly [k] days. *)
Lemma add_days_day_number fuel y m d k :
  valid_ymd y m d = true -> (Z.abs_nat k < fuel)%nat ->
  let '(y', m', d') := add_days fuel y m d k in day_number y' m' d' = day_number y m d + k.
Proof.
  revert y m d k. induction fuel as [|f IH]; intros y m d k Hv Hf; [lia|].
  destruct (add_days_step y m d k Hv) as [[Hr ->]|(y' & m' & d' & k' & Hv' & Hk & Hn & ->)].
  - unfold day_number. lia.
  - specialize (IH y' m' d' k' Hv' ltac:(lia)).
    destruct (add_days f _ _ _ _) as [[y1 m1] d1]. lia.
Qed.

(** Any fuel above [|k|] gives the same result: the iteration has ended
    before the fuel runs out. *)
Lemma add_days_fuel f1 f2 y m d k :
  valid_ymd y m d = true -> (Z.abs_nat k < f1)%nat -> (Z.abs_nat k < f2)%nat ->
  add_days f1 y m d k = add_days f2 y m d k.
Proof.
  revert f2 y m d k. induction f1 as [|f1 IH]; intros [|f2] y m d k Hv H1 H2; try lia.
  destruct (add_days_step y m d k Hv) as [[_ Heq]|(y' & m' & d' & k' & Hv' & Hk & _ & Heq)].
  - by rewrite !Heq.
  - rewrite !Heq. apply IH; [done|lia|lia].
Qed.

(** Inside the month, no boundary is crossed. *)
Lemma add_days_same_month f y m d k :
  1 <= d + k <= days_in_month y m -> add_days (S f) y m d k = (y, m, d + k).
Proof.
  intros H. simpl. destruct (Z.leb_spec 1 (d + k)), (Z.leb_spec (d + k) (days_in_month y m));
    simpl; [done | lia..].
Qed.

(** [new Date(y, m, d)] is always a calendar day. *)
Lemma new_Date_valid y m d :
  let t := new_Date y m d in valid_ymd (year t) (month t) (day t) = true.
Proof.
  unfold new_Date.
  destruct (add_days _ _ _ _ _) as [[y' m'] d'] eqn:E. simpl.
  pose proof (add_days_valid (S (Z.to_nat (Z.abs (d - 1))))
    ((if (0 <=? y) && (y <=? 99) then 1900 + y else y) + m / 12) (m mod 12) 1 (d - 1)) as H.
  rewrite E in H. apply H; [|lia].
  apply valid_ymd_spec. pose proof (Z.mod_pos_bound m 12).
  pose proof (days_in_month_bounds ((if (0 <=? y) && (y <=? 99) then 1900 + y else y) + m / 12) (m mod 12)).
  lia.
Qed.

(** The check of [checkBirthDayCode]: for a year outside 0..99, a month
    from 0 to 11 and a positive day, [new Date(y, m, d)] gives back [y],
    [m] and [d] exactly when [d] is a day of that month. *)
Lemma new_Date_fields y m d :
  (y < 0 \/ 99 < y) -> 0 <= m <= 11 -> 1 <= d ->
  (Z.eqb (getFullYear (new_Date y m d)) y && Z.eqb (getMonth (new_Date y m d)) m &&
   Z.eqb (getDate (new_Date y m d)) d) = (d <=? days_in_month y m).
Proof.
  intros Hy Hm Hd.
  pose proof (new_Date_valid y m d) as Hv. unfold new_Date in *.
  assert (Hyr : (if (0 <=? y) && (y <=? 99) then 1900 + y else y) = y).
  { destruct (Z.leb_spec 0 y), (Z.leb_spec y 99); simpl; lia. }
  rewrite Hyr, Z.div_small, Z.mod_small, Z.add_0_r in * by lia.
  destruct (Z.leb_spec d (days_in_month y m)).
  - rewrite add_days_same_month in * by lia. simpl.
    replace (1 + (d - 1)) with d by lia. by rewrite !Z.eqb_refl.
  - destruct (add_days _ _ _ _ _) as [[y' m'] d'] eqn:E. simpl in *.
    apply valid_ymd_spec in Hv.
    destruct (Z.eqb_spec y' y), (Z.eqb_spec m' m), (Z.eqb_spec d' d); subst; simpl; lia.
Qed.

(** On a calendar day with a year outside 0..99, [new Date] changes
    nothing. *)
Lemma new_Date_exact y m d :
  (y < 0 \/ 99 < y) -> valid_ymd y m d = true -> new_Date y m d = mkDate y m d 0.
Proof.
  intros Hy Hv. apply valid_ymd_spec in Hv as [Hm Hd]. unfold new_Date.
  assert (Hyr : (if (0 <=? y) && (y <=? 99) then 1900 + y else y) = y).
  { destruct (Z.leb_spec 0 y), (Z.leb_spec y 99); simpl; lia. }
  rewrite Hyr, Z.div_small, Z.mod_small, Z.add_0_r by lia.
  rewrite add_days_same_month by lia. do 2 f_equal. lia.
Qed.

(** A date built at midnight is after the clock reading [t] exactly when
    its day is after the day of [t]. *)
Lemma date_gt_midnight y m d t :
  0 <= ms t -> date_gt (mkDate y m d 0) t = negb (ymd_le y m d t).
Proof.
  intros Hms. unfold date_gt, ymd_le. simpl.
  destruct (Z.ltb_spec (year t) y), (Z.ltb_spec y (year t)), (Z.eqb_spec y (year t)),
    (Z.ltb_spec (month t) m), (Z.ltb_spec m (month t)), (Z.eqb_spec m (month t)),
    (Z.ltb_spec (day t) d), (Z.leb_spec d (day t)), (Z.eqb_spec d (day t)),
    (Z.ltb_spec (ms t) 0); simpl; try reflexivity; lia.
Qed.

(** ** Day numbers: [MakeDay] and the order of time values *)

Lemma days_in_year_bounds y : 365 <= days_in_year y <= 366.
Proof. unfold days_in_year. destruct (leap y); lia. Qed.

Lemma days_before_month_mono y m1 m2 :
  0 <= m1 < m2 -> days_before_month y m1 + days_in_month y m1 <= days_before_month y m2.
Proof.
  intros Hm. rewrite <- days_before_month_succ by lia.
  apply (Z_step_mono (days_before_month y)); [|lia].
  intros x Hx. rewrite days_before_month_succ by lia. pose proof (days_in_month_bounds y x). lia.
Qed.

Lemma days_before_month_nonneg y m : 0 <= m -> 0 <= days_before_month y m.
Proof.
  intros Hm. change 0 with (days_before_month y 0) at 1.
  apply (Z_step_mono (days_before_month y)); [|lia].
  intros x Hx. rewrite days_before_month_succ by lia. pose proof (days_in_month_bounds y x). lia.
Qed.

Lemma days_before_year_mono y1 y2 :
  y1 < y2 -> days_before_year y1 + days_in_year y1 <= days_before_year y2.
Proof.
  intros Hy. rewrite <- days_before_year_succ.
  apply (Z_step_mono days_before_year); [|lia].
  intros x _. rewrite days_before_year_succ. pose proof (days_in_year_bounds x). lia.
Qed.

(** A calendar day ends within its year. *)
Lemma day_in_year y m d :
  valid_ymd y m d = true -> days_before_month y m + d <= days_in_year y.
Proof.
  intros Hv. apply valid_ymd_spec in Hv as [Hm Hd]. rewrite <- days_before_month_12.
  pose proof (days_before_month_mono y m 12 ltac:(lia)). lia.
Qed.

(** The day number is increasing in the lexicographic order of the
    calendar days. *)
Lemma day_number_lt y1 m1 d1 y2 m2 d2 :
  valid_ymd y1 m1 d1 = true -> valid_ymd y2 m2 d2 = true ->
  (y1 < y2 \/ (y1 = y2 /\ (m1 < m2 \/ (m1 = m2 /\ d1 < d2)))) ->
  day_number y1 m1 d1 < day_number y2 m2 d2.
Proof.
  intros Hv1 Hv2 Hlt. pose proof (day_in_year _ _ _ Hv1).
  apply valid_ymd_spec in Hv1 as [Hm1 Hd1]. apply valid_ymd_spec in Hv2 as [Hm2 Hd2].
  pose proof (days_before_month_nonneg y2 m2 ltac:(lia)). unfold day_number.
  destruct Hlt as [Hy|[-> [Hm|[-> Hd]]]]; [|pose proof (days_before_month_mono y2 m1 m2)|]; 
    [pose proof (days_before_year_mono y1 y2 Hy)|..]; lia.
Qed.

(** On calendar days, [ymd_le] is the order of the day numbers. *)
Lemma ymd_le_day_number y m d t :
  valid_ymd y m d = true -> valid_ymd (year t) (month t) (day t) = true ->
  ymd_le y m d t = (day_number y m d <=? day_number (year t) (month t) (day t)).
Proof.
  intros Hv Ht. pose proof (day_number_lt _ _ _ _ _ _ Hv Ht). pose proof (day_number_lt _ _ _ _ _ _ Ht Hv).
  unfold ymd_le. destruct t as [yt mt dt tt]; simpl in *.
  destruct (Z.ltb_spec y yt), (Z.eqb_spec y yt), (Z.ltb_spec m mt), (Z.eqb_spec m mt),
    (Z.leb_spec d dt); simpl; subst; symmetry;
    first [apply Z.leb_le | apply Z.leb_gt];
    first [lia | apply Z.lt_le_incl, H; lia | apply H0; lia
          | destruct (Z.eq_dec d dt) as [->|]; [lia | apply Z.lt_le_incl, H; lia]].
Qed.

(** C15: On two valid dates, [a > b] as the source writes it (the comparison of
    the time values) is the lexicographic comparison [date_gt]. *)
Theorem date_gt_time_value a b :
  valid_date a = true -> valid_date b = true -> date_gt a b = (time_value b <? time_value a).
Proof.
  unfold valid_date. intros Ha Hb.
  apply andb_prop in Ha as [Ha Ha2]. apply andb_prop in Ha as [Ha Ha1].
  apply andb_prop in Hb as [Hb Hb2]. apply andb_prop in Hb as [Hb Hb1].
  apply Z.leb_le in Ha1, Hb1. apply Z.ltb_lt in Ha2, Hb2.
  pose proof (day_number_lt _ _ _ _ _ _ Ha Hb) as Hab.
  pose proof (day_number_lt _ _ _ _ _ _ Hb Ha) as Hba.
  unfold date_gt, time_value, ms_per_day.
  destruct a as [ya ma da ta], b as [yb mb db tb]; simpl in *.
  destruct (Z.ltb_spec yb ya), (Z.eqb_spec ya yb), (Z.ltb_spec mb ma), (Z.eqb_spec ma mb),
    (Z.ltb_spec db da), (Z.eqb_spec da db), (Z.ltb_spec tb ta); simpl; subst;
    symmetry; first [apply Z.ltb_lt | apply Z.ltb_ge]; nia.
Qed.

Lemma date_gt_time_value_witness :
  valid_date (mkDate 2026 10 9 43200000) = true /\ valid_date (mkDate 1990 2 7 0) = true /\
  date_gt (mkDate 2026 10 9 43200000) (mkDate 1990 2 7 0) =
  (time_value (mkDate 1990 2 7 0) <? time_value (mkDate 2026 10 9 43200000)).
Proof.
  split; [reflexivity|]. split; [reflexivity|]. apply date_gt_time_value; reflexivity.
Defined.

(** C14: [new Date(y, m, d)] is the calendar day [d - 1] days after the first
    of month [m mod 12] of year [y + m / 12] (the years 0 to 99 read as
    1900 to 1999): ECMAScript's [MakeDay], at midnight. *)
Theorem new_Date_MakeDay y m d :
  let yr := if (0 <=? y) && (y <=? 99) then 1900 + y else y in
  let t := new_Date y m d in
  valid_date t = true /\
  day_number (year t) (month t) (day t) = day_number (yr + m / 12) (m mod 12) 1 + (d - 1).
Proof.
  intros yr t. pose proof (new_Date_valid y m d) as Hv. subst t. unfold new_Date in *. fold yr in Hv |- *.
  pose proof (Z.mod_pos_bound m 12 ltac:(lia)).
  pose proof (add_days_day_number (S (Z.to_nat (Z.abs (d - 1)))) (yr + m / 12) (m mod 12) 1 (d - 1)) as Hd.
  destruct (add_days _ _ _ _ _) as [[y' m'] d']. simpl in *. split.
  - unfold valid_date. simpl. by rewrite Hv.
  - apply Hd; [|lia]. apply valid_ymd_spec. pose proof (days_in_month_bounds (yr + m / 12) (m mod 12)). lia.
Qed.

(** C16: For a year outside 0..99, [new Date(y, m, d)] keeps its arguments
    exactly when they name a calendar day. *)
Theorem new_Date_identity y m d :
  (y < 0 \/ 99 < y) -> new_Date y m d = mkDate y m d 0 <-> valid_ymd y m d = true.
Proof.
  intros Hy. split; [|by apply new_Date_exact].
  intros E. pose proof (new_Date_valid y m d) as Hv. by rewrite E in Hv.
Qed.

Lemma new_Date_identity_witness :
  (2000 < 0 \/ 99 < 2000) /\ (new_Date 2000 1 29 = mkDate 2000 1 29 0 <-> valid_ymd 2000 1 29 = true).
Proof. split; [lia | apply new_Date_identity; lia]. Defined.


(** ** Termination and bounds of [new Date] *)

(** The first day of the month [new Date] starts from is a calendar day. *)
Lemma new_Date_start y m :
  valid_ymd ((if (0 <=? y) && (y <=? 99) then 1900 + y else y) + m / 12) (m mod 12) 1 = true.
Proof.
  apply valid_ymd_spec. pose proof (Z.mod_pos_bound m 12 ltac:(lia)).
  pose proof (days_in_month_bounds ((if (0 <=? y) && (y <=? 99) then 1900 + y else y) + m / 12)
    (m mod 12)). lia.
Qed.

(** The iteration of [new Date] has ended within its fuel [|d - 1| + 1]:
    any larger fuel computes the same day. *)
Lemma new_Date_fuel y m d fuel :
  (Z.abs_nat (d - 1) < fuel)%nat ->
  let t := new_Date y m d in
  add_days fuel ((if (0 <=? y) && (y <=? 99) then 1900 + y else y) + m / 12) (m mod 12) 1 (d - 1) =
  (year t, month t, day t).
Proof.
  intros Hf. unfold new_Date.
  rewrite (add_days_fuel fuel (S (Z.to_nat (Z.abs (d - 1))))) by (apply new_Date_start || lia).
  by destruct (add_days _ _ _ _ _) as [[y' m'] d'].
Qed.

(** The instant of the epoch, 1970-01-01 at midnight. *)
Definition epoch : date := mkDate 1970 0 1 0.

Lemma days_before_year_le y1 y2 : y1 <= y2 -> days_before_year y1 <= days_before_year y2.
Proof.
  intros Hy. destruct (Z.eq_dec y1 y2) as [->|]; [lia|].
  pose proof (days_before_year_mono y1 y2 ltac:(lia)). pose proof (days_in_year_bounds y1). lia.
Qed.

(** A date of a year of at most four digits, a month from 0 to 11 and a
    day from 1 to 31 is within [8.64e15] ms of the epoch. *)
Lemma new_Date_time_clip y m d :
  0 <= y <= 9999 -> 0 <= m <= 11 -> 1 <= d <= 31 ->
  Z.abs (time_value (new_Date y m d) - time_value epoch) <= 8640000000000000.
Proof.
  intros Hy Hm Hd. destruct (new_Date_MakeDay y m d) as [Hv Hn]. cbv zeta in Hv, Hn.
  unfold time_value. rewrite Hn. assert (Hms : ms (new_Date y m d) = 0).
  { unfold new_Date. by destruct (add_days _ _ _ _ _) as [[? ?] ?]. }
  rewrite Hms. rewrite Z.div_small, Z.mod_small, Z.add_0_r by lia.
  set (yr := if (0 <=? y) && (y <=? 99) then 1900 + y else y).
  assert (Hyr : 0 <= yr <= 9999) by (subst yr; destruct (Z.leb_spec 0 y), (Z.leb_spec y 99); simpl; lia).
  pose proof (days_before_year_le 0 yr ltac:(lia)). pose proof (days_before_year_le yr 9999 ltac:(lia)).
  pose proof (days_before_month_nonneg yr m ltac:(lia)).
  pose proof (days_before_month_mono yr m 12 ltac:(lia)). rewrite days_before_month_12 in *.
  pose proof (days_in_year_bounds yr). pose proof (days_in_month_bounds yr m).
  change (days_before_year 0) with 0 in *. change (days_before_year 9999) with 3652060 in *.
  unfold day_number, epoch, ms_per_day in *. simpl. change (days_before_year 1970) with 719528.
  change (days_before_month 1970 0) with 0. rewrite !Z.add_0_r. lia.
Qed.


End JsDate.
