(* ===== verification/Tables.v ===== *)
(** The constant fields of the class [idCardNoUtil]
    ([src/js/idCardNoUtil.js], lines 33-86): the province table, the
    weights of the check sum, the check characters and the two gender
    names.  The province table is a JavaScript object with numeric keys;
    the source reads it with a number, so it is a [gmap Z] here. *)

From stdpp Require Import gmap.
From S2P Require Import Prelude JsString.
Import Js.

Module Tables.

(** [provinceAndCitys]: the two-digit province codes. *)
Definition provinceAndCitys : gmap Z jsstring :=
  list_to_map [
    (11, ‹"北京"›); (12, ‹"天津"›); (13, ‹"河北"›); (14, ‹"山西"›); (15, ‹"内蒙古"›);
    (21, ‹"辽宁"›); (22, ‹"吉林"›); (23, ‹"黑龙江"›);
    (31, ‹"上海"›); (32, ‹"江苏"›); (33, ‹"浙江"›); (34, ‹"安徽"›); (35, ‹"福建"›);
    (36, ‹"江西"›); (37, ‹"山东"›);
    (41, ‹"河南"›); (42, ‹"湖北"›); (43, ‹"湖南"›); (44, ‹"广东"›); (45, ‹"广西"›);
    (46, ‹"海南"›);
    (50, ‹"重庆"›); (51, ‹"四川"›); (52, ‹"贵州"›); (53, ‹"云南"›); (54, ‹"西藏"›);
    (61, ‹"陕西"›); (62, ‹"甘肃"›); (63, ‹"青海"›); (64, ‹"宁夏"›); (65, ‹"新疆"›);
    (71, ‹"台湾"›);
    (81, ‹"香港"›); (82, ‹"澳门"›);
    (91, ‹"国外"›)]%Z.

(** [powers]: the weight of each of the first 17 characters. *)
Definition powers : list Z := [7; 9; 10; 5; 8; 4; 2; 1; 6; 3; 7; 9; 10; 5; 8; 4; 2]%Z.

(** [parityBit]: the check character for each remainder modulo 11. *)
Definition parityBit : list jsstring :=
  [‹"1"›; ‹"0"›; ‹"X"›; ‹"9"›; ‹"8"›; ‹"7"›; ‹"6"›; ‹"5"›; ‹"4"›; ‹"3"›; ‹"2"›].

(** [genders]. *)
Record gender_names := { male : jsstring; female : jsstring }.
Definition genders : gender_names := {| male := ‹"男"›; female := ‹"女"› |}.

(** The province codes, in the order of the table. *)
Definition province_codes : list Z :=
  [11; 12; 13; 14; 15; 21; 22; 23; 31; 32; 33; 34; 35; 36; 37;
   41; 42; 43; 44; 45; 46; 50; 51; 52; 53; 54; 61; 62; 63; 64; 65;
   71; 81; 82; 91]%Z.

(** ** Lemmas *)

(** The weights are the [W_i = 2^(i-1) mod 11] of the comment of the
    source (line 22), [i] counting from the right end of the 18
    characters. *)
Lemma powers_formula :
  powers = map (fun i => 2 ^ Z.of_nat (17 - i) mod 11)%Z (seq 0 17).
Proof. reflexivity. Qed.

Lemma length_powers : length powers = 17%nat.
Proof. reflexivity. Qed.

Lemma dom_provinceAndCitys :
  dom provinceAndCitys = (list_to_set province_codes : gset Z).
Proof. eval_decide. Qed.

(** A code is in the table exactly when it is one of the listed codes. *)
Lemma provinceAndCitys_is_Some z :
  is_Some (provinceAndCitys !! z) <-> z ∈ province_codes.
Proof. rewrite <- elem_of_dom, dom_provinceAndCitys. apply elem_of_list_to_set. Qed.

(** Every name of the table is a non-empty string, so truthy. *)
Lemma provinceAndCitys_nonempty : map_Forall (fun _ v => v <> []) provinceAndCitys.
Proof. eval_decide. Qed.

End Tables.
