(* ===== verification/Checksum.v ===== *)
(** The check character of the 18-character number:
    [getParityBit] and [checkParityBit] of [src/js/idCardNoUtil.js]
    (lines 113-128), with [parseInt(this.powers[i])] read through
    [Number::toString], and the ISO 7064 MOD 11-2 rule they implement: the
    17 digits weighted by [2^(i-1) mod 11] plus the value of the check
    character ([X] for ten) is 1 modulo 11.  The theorems show that the
    loop computes the weighted sum, that [checkParityBit] decides the
    MOD 11-2 rule, and that a change of one digit or a swap of two
    adjacent different digits always changes the check character; also
    that the result is [undefined] or one character of [0-9X], and that
    the running sum of the loop stays between 0 and 900. *)

From S2P Require Import Prelude JsString Tables.
Import Js Tables.

Module Checksum.

(** One turn of the loop of [getParityBit]:
    [power += parseInt(id17.charAt(i), 10) * parseInt(this.powers[i])];
    [parseInt] of a number converts it to a string first, and its radix
    is [undefined]. *)
Definition power_step (id17 : jsstring) (power : jsnum) (i : nat) : jsnum :=
  num_add power (num_mul (parseInt (charAt id17 i) (Some 10%Z))
                         (parseInt (toString_elem (powers !! i)) None)).

(** [getParityBit(idCardNo)]: [undefined] is [None]. *)
Definition getParityBit (idCardNo : jsstring) : option jsstring :=
  let id17 := substring idCardNo 0 17 in
  let power := fold_left (power_step id17) (seq 0 17) (Some 0%Z) in
  index parityBit (num_rem power (Some 11%Z)).

(** [checkParityBit(idCardNo)]. *)
Definition checkParityBit (idCardNo : jsstring) : bool :=
  loose_eq_opt (getParityBit idCardNo) (toUpperCase (charAt idCardNo 17)).

(** ** The MOD 11-2 specification *)

(** The weights [2^(i-1) mod 11] of positions 18 down to 2. *)
Definition iso_weights : list Z := map (fun i => 2 ^ Z.of_nat (17 - i) mod 11)%Z (seq 0 17).

Fixpoint dot (xs ws : list Z) : Z :=
  match xs, ws with x :: xs', w :: ws' => (x * w + dot xs' ws')%Z | _, _ => 0%Z end.

Definition weighted_sum (id17 : jsstring) : Z := dot (map digit_val id17) iso_weights.

(** The value of a check character: a digit, or [X] (or [x]) for ten. *)
Definition check_value (c : ascii) : option Z :=
  if is_digit c then Some (digit_val c)
  else if (c =? "x")%char || (c =? "X")%char then Some 10%Z else None.

(** The MOD 11-2 rule for 17 digits and a check character. *)
Definition mod11_2 (id17 : jsstring) (c : ascii) : bool :=
  match check_value c with
  | Some v => Z.eqb ((weighted_sum id17 + v) mod 11) 1
  | None => false
  end.

(** The check character of the standard: the value [v] that makes the
    sum 1 modulo 11 is [(12 - S mod 11) mod 11], written as a digit, or
    [X] for ten. *)
Definition check_char_of (v : Z) : ascii :=
  if Z.eqb v 10 then "X"%char else ascii_of_N (Z.to_N (48 + v)).

Definition iso_check_char (id17 : jsstring) : ascii :=
  check_char_of ((12 - weighted_sum id17 mod 11) mod 11)%Z.

(** The table [parityBit] against the formula, checked by evaluation. *)
Definition iso_row (r : Z) : bool :=
  bool_decide (parityBit !! Z.to_nat r = Some [check_char_of ((12 - r) mod 11)%Z]).

(** ** The loop computes the weighted sum *)

Lemma dot_nil_r xs : dot xs [] = 0%Z.
Proof. by destruct xs. Qed.

Lemma dot_app xs ys ws : dot (xs ++ ys) ws = (dot xs ws + dot ys (drop (length xs) ws))%Z.
Proof.
  revert ws. induction xs as [|x xs IH]; intros [|w ws]; simpl;
    rewrite ?IH, ?dot_nil_r; lia.
Qed.

Lemma dot_nonneg xs ws :
  Forall (fun x => 0 <= x)%Z xs -> Forall (fun w => 0 <= w)%Z ws -> (0 <= dot xs ws)%Z.
Proof.
  intros Hx. revert ws. induction Hx as [|x xs Hx0 Hxs IH]; intros [|w ws] Hw; simpl; [lia..|].
  inversion Hw; subst. specialize (IH ws ltac:(done)). nia.
Qed.

Lemma iso_weights_powers : iso_weights = powers.
Proof. symmetry. apply powers_formula. Qed.

Lemma weighted_sum_nonneg id17 : forallb is_digit id17 = true -> (0 <= weighted_sum id17)%Z.
Proof.
  intros H. apply dot_nonneg.
  - apply Forall_forall. intros x Hx. apply list_elem_of_In, in_map_iff in Hx as (c & <- & Hc).
    rewrite forallb_forall in H. apply is_digit_range, H, Hc.
  - apply Forall_forall. intros w Hw. unfold iso_weights in Hw.
    apply list_elem_of_In, in_map_iff in Hw as (i & <- & _). apply Z.mod_pos_bound. lia.
Qed.

Lemma parseInt_digit c : is_digit c = true -> parseInt [c] (Some 10%Z) = Some (digit_val c).
Proof. intros H. rewrite parseInt_digits; [done | by right | done | simpl; by rewrite H].
Qed.

Definition powers_parse_row (i : nat) : bool :=
  bool_decide (parseInt (toString_elem (powers !! i)) None = powers !! i).

(** [parseInt(this.powers[i])] reads the weight back, and is NaN past the
    end of the array, as [this.powers[i]] is there. *)
Lemma parseInt_powers i : parseInt (toString_elem (powers !! i)) None = powers !! i.
Proof.
  destruct (decide (i < 17)%nat) as [Hi|Hi].
  - pose proof (forall_nat_range powers_parse_row 17 ltac:(vm_compute; reflexivity) i Hi) as H.
    exact (bool_decide_eq_true_1 _ H).
  - rewrite lookup_ge_None_2 by (rewrite length_powers; lia). vm_compute. reflexivity.
Qed.

Lemma power_step_digit id17 i c w acc :
  id17 !! i = Some c -> is_digit c = true -> powers !! i = Some w ->
  power_step id17 (Some acc) i = Some (acc + digit_val c * w)%Z.
Proof.
  intros Hc Hd Hw. unfold power_step.
  by rewrite (charAt_lookup _ _ _ Hc), parseInt_digit, parseInt_powers, Hw.
Qed.

Lemma power_loop id17 n i acc :
  length id17 = 17%nat -> forallb is_digit id17 = true -> (i + n <= 17)%nat ->
  fold_left (power_step id17) (seq i n) (Some acc) =
  Some (acc + dot (map digit_val (take n (drop i id17))) (take n (drop i powers)))%Z.
Proof.
  intros Hl Hd. revert i acc.
  induction n as [|n IH]; intros i acc Hn; cbn [seq fold_left]; [simpl; f_equal; lia|].
  destruct (lookup_lt_is_Some_2 id17 i) as [c Hc]; [lia|].
  destruct (lookup_lt_is_Some_2 powers i) as [w Hw]; [rewrite length_powers; lia|].
  rewrite (power_step_digit _ _ c w) by (done || by eapply forallb_lookup).
  rewrite IH by lia. rewrite (drop_S _ _ _ Hc), (drop_S _ _ _ Hw). simpl. f_equal. lia.
Qed.

(** The [for] loop of [getParityBit] sums the digits weighted by [powers]:
    the sum of the MOD 11-2 rule. *)
Lemma power_sum id17 :
  length id17 = 17%nat -> forallb is_digit id17 = true ->
  fold_left (power_step id17) (seq 0 17) (Some 0%Z) = Some (weighted_sum id17).
Proof.
  intros Hl Hd. rewrite power_loop by (done || lia). rewrite !drop_0, take_full by done.
  unfold weighted_sum. by rewrite iso_weights_powers.
Qed.

(** [getParityBit] on a number whose first 17 characters are digits is
    the entry of [parityBit] at the weighted sum modulo 11. *)
Lemma getParityBit_spec s :
  (17 <= length s)%nat -> forallb is_digit (take 17 s) = true ->
  getParityBit s = parityBit !! Z.to_nat (weighted_sum (take 17 s) mod 11).
Proof.
  intros Hl Hd. unfold getParityBit.
  rewrite substring_spec by lia. rewrite drop_0, Nat.sub_0_r.
  rewrite power_sum by (rewrite ?length_take; (done || lia)).
  pose proof (weighted_sum_nonneg _ Hd). simpl.
  rewrite Z.rem_mod_nonneg by lia.
  destruct (Z.leb_spec 0 (weighted_sum (take 17 s) mod 11)); [done|].
  pose proof (Z.mod_pos_bound (weighted_sum (take 17 s)) 11). lia.
Qed.

(** ** [checkParityBit] decides MOD 11-2 *)

(** The table [parityBit] read at a remainder [r], compared with the
    upper case of a character [c], agrees with the MOD 11-2 rule on
    [r] and the value of [c]. *)
(** The decision tables checked by evaluation below. *)
Definition parity_row (r : Z) : bool :=
  forallb (fun c =>
    Bool.eqb (loose_eq_opt (parityBit !! Z.to_nat r) [upper_char c])
      match check_value c with Some v => Z.eqb ((r + v) mod 11) 1 | None => false end)
    all_ascii.

Definition substitution_row (j : nat) : bool :=
  match iso_weights !! j with
  | Some w => forallb (fun d => (d =? 0)%Z || negb ((d * w) mod 11 =? 0)%Z)
                (map (fun i => -9 + Z.of_nat i)%Z (seq 0 19))
  | None => false
  end.

Definition transposition_row (j : nat) : bool :=
  match iso_weights !! j, iso_weights !! S j with
  | Some w1, Some w2 => forallb (fun d => (d =? 0)%Z || negb ((d * (w1 - w2)) mod 11 =? 0)%Z)
                          (map (fun i => -9 + Z.of_nat i)%Z (seq 0 19))
  | _, _ => false
  end.

Lemma parity_table r c :
  (0 <= r < 11)%Z ->
  loose_eq_opt (parityBit !! Z.to_nat r) [upper_char c] =
  match check_value c with Some v => Z.eqb ((r + v) mod 11) 1 | None => false end.
Proof.
  intros Hr. apply Bool.eqb_prop.
  pose proof (forall_Z_range parity_row 0 11 ltac:(vm_compute; reflexivity) r ltac:(lia)) as H.
  unfold parity_row in H. rewrite forallb_forall in H. apply H, all_ascii_complete.
Qed.

Lemma parityBit_char k :
  (k < 11)%nat -> exists pc, parityBit !! k = Some [pc] /\ upper_char pc = pc.
Proof. intros Hk. do 11 (destruct k as [|k]; [eexists; split; reflexivity|]). lia. Qed.

Lemma NoDup_parityBit : NoDup parityBit.
Proof. eval_decide. Qed.

Lemma take_app_exact {A} (l k : list A) n : length l = n -> take n (l ++ k) = l.
Proof. intros <-. apply take_app_length. Qed.

Lemma charAt_app_end (l : jsstring) c n : length l = n -> charAt (l ++ [c]) n = [c].
Proof. intros <-. apply charAt_lookup. rewrite lookup_app_r, Nat.sub_diag by lia. done. Qed.

Lemma ws_mod_range id17 : (0 <= weighted_sum id17 mod 11 < 11)%Z.
Proof. apply Z.mod_pos_bound. lia. Qed.

(** [checkParityBit] of 17 digits followed by a character [c] is the
    MOD 11-2 rule ([c] may be a digit, [x] or [X]). *)
Lemma checkParityBit_spec id17 c :
  length id17 = 17%nat -> forallb is_digit id17 = true ->
  checkParityBit (id17 ++ [c]) = mod11_2 id17 c.
Proof.
  intros Hl Hd. unfold checkParityBit.
  rewrite getParityBit_spec by (rewrite ?length_app, ?take_app_exact by done; simpl; (done || lia)).
  rewrite take_app_exact by done.
  rewrite charAt_app_end by done. simpl.
  rewrite parity_table by apply ws_mod_range. unfold mod11_2.
  destruct (check_value c); [|done]. by rewrite Z.add_mod_idemp_l.
Qed.

(** The character [getParityBit] computes passes [checkParityBit]. *)
Lemma getParityBit_check id17 :
  length id17 = 17%nat -> forallb is_digit id17 = true ->
  exists pc, getParityBit id17 = Some [pc] /\ checkParityBit (id17 ++ [pc]) = true.
Proof.
  intros Hl Hd.
  destruct (parityBit_char (Z.to_nat (weighted_sum id17 mod 11))) as (pc & Hpc & Hup).
  { pose proof (ws_mod_range id17). lia. }
  exists pc. rewrite getParityBit_spec, take_full by (rewrite ?take_full; (done || lia)).
  split; [done|]. unfold checkParityBit.
  rewrite getParityBit_spec by (rewrite ?length_app, ?take_app_exact by done; simpl; (done || lia)).
  rewrite take_app_exact, charAt_app_end by done. simpl.
  rewrite Hpc, Hup. by apply bool_decide_eq_true_2.
Qed.

(** [getParityBit] reads the first 17 characters only. *)
Lemma getParityBit_app id17 u : length id17 = 17%nat -> getParityBit (id17 ++ u) = getParityBit id17.
Proof.
  intros Hl. unfold getParityBit.
  rewrite !substring_spec by len. by rewrite !drop_0, take_app_exact, take_full.
Qed.

(** A check character [c] that satisfies MOD 11-2 is, up to upper case,
    the one [getParityBit] computes. *)
Lemma getParityBit_upper id17 c :
  length id17 = 17%nat -> forallb is_digit id17 = true -> mod11_2 id17 c = true ->
  getParityBit id17 = Some [upper_char c].
Proof.
  intros Hl Hd Hm. rewrite <- checkParityBit_spec in Hm by done.
  unfold checkParityBit in Hm. rewrite getParityBit_app, charAt_app_end in Hm by done.
  destruct (getParityBit id17); [|done]. simpl in Hm. by apply bool_decide_eq_true_1 in Hm as ->.
Qed.

(** A valid check character other than [x] is its own upper case. *)
Lemma upper_char_check c : check_value c <> None -> c <> "x"%char -> upper_char c = c.
Proof.
  unfold check_value. intros Hc Hx. destruct (is_digit c) eqn:Hd; [by apply upper_char_digit|].
  destruct (Ascii.eqb_spec c "x"), (Ascii.eqb_spec c "X"); subst; done.
Qed.

(** C3: The table lookup of [getParityBit] computes the check character of
    the standard: the optimised routine (a loop and a table) against the
    reference formula. *)
Theorem getParityBit_iso id17 :
  length id17 = 17%nat -> forallb is_digit id17 = true ->
  getParityBit id17 = Some [iso_check_char id17].
Proof.
  intros Hl Hd. rewrite getParityBit_spec, take_full by (rewrite ?take_full; (done || lia)).
  unfold iso_check_char. pose proof (ws_mod_range id17) as Hr.
  pose proof (forall_Z_range iso_row 0 11 ltac:(vm_compute; reflexivity)
    (weighted_sum id17 mod 11)%Z ltac:(lia)) as H.
  unfold iso_row in H. exact (bool_decide_eq_true_1 _ H).
Qed.

Lemma getParityBit_iso_witness :
  length ‹"11010119900307123"› = 17%nat /\ forallb is_digit ‹"11010119900307123"› = true /\
  getParityBit ‹"11010119900307123"› = Some [iso_check_char ‹"11010119900307123"›].
Proof. split; [reflexivity|]. split; [reflexivity|]. apply getParityBit_iso; reflexivity. Defined.

(** ** Types and bounds *)

Lemma dot_bound xs ws :
  Forall (fun x => 0 <= x <= 9)%Z xs -> Forall (fun w => 0 <= w)%Z ws ->
  (0 <= dot xs ws <= 9 * fold_right Z.add 0 ws)%Z.
Proof.
  intros Hx Hw. assert (Hs : forall ws, Forall (fun w => 0 <= w)%Z ws -> (0 <= fold_right Z.add 0 ws)%Z)
    by (induction 1; simpl; lia).
  revert ws Hw. induction Hx as [|x xs Hx0 Hxs IH]; intros [|w ws] Hw; simpl; [lia| |lia|].
  - pose proof (Hs _ Hw). simpl in *. lia.
  - inversion Hw as [|? ? Hw0 Hws]; subst. specialize (IH ws Hws). pose proof (Hs _ Hws). nia.
Qed.

(** The partial sums of the weights are at most 100. *)
Definition powers_prefix_row (n : nat) : bool :=
  bool_decide (fold_right Z.add 0 (take n powers) <= 100)%Z.

(** C18: Every value the loop of [getParityBit] gives [power] on 17 digits
    is an integer from 0 to 900: far below [2^53], so the floating-point
    arithmetic of JavaScript computes these sums exactly, as the integer
    model does. *)
Theorem getParityBit_power_bounds id17 n :
  length id17 = 17%nat -> forallb is_digit id17 = true -> (n <= 17)%nat ->
  exists p, fold_left (power_step id17) (seq 0 n) (Some 0%Z) = Some p /\ (0 <= p <= 900)%Z.
Proof.
  intros Hl Hd Hn. rewrite power_loop by (done || lia). eexists. split; [reflexivity|].
  rewrite !drop_0.
  pose proof (forall_nat_range powers_prefix_row 18 ltac:(vm_compute; reflexivity) n ltac:(lia)) as Hs.
  apply bool_decide_eq_true_1 in Hs.
  assert (Hx : Forall (fun x => 0 <= x <= 9)%Z (map digit_val (take n id17))).
  { apply Forall_forall. intros x Hx. apply list_elem_of_In, in_map_iff in Hx as (c & <- & Hc).
    apply list_elem_of_In, (subseteq_take n id17), list_elem_of_In in Hc.
    rewrite forallb_forall in Hd. pose proof (is_digit_range c (Hd c Hc)). cbv beta. lia. }
  assert (Hw : Forall (fun w => 0 <= w)%Z (take n powers)) by (apply Forall_take; repeat constructor; lia).
  pose proof (dot_bound _ _ Hx Hw). lia.
Qed.

Lemma getParityBit_power_bounds_witness :
  length ‹"11010119900307123"› = 17%nat /\ forallb is_digit ‹"11010119900307123"› = true /\
  (17 <= 17)%nat /\
  exists p, fold_left (power_step ‹"11010119900307123"›) (seq 0 17) (Some 0%Z) = Some p /\ (0 <= p <= 900)%Z.
Proof.
  split; [reflexivity|]. split; [reflexivity|]. split; [lia|].
  apply getParityBit_power_bounds; (reflexivity || lia).
Defined.

(** ** Error detection *)

Lemma weighted_sum_app p q :
  weighted_sum (p ++ q) =
  (dot (map digit_val p) iso_weights + dot (map digit_val q) (drop (length p) iso_weights))%Z.
Proof. unfold weighted_sum. by rewrite map_app, dot_app, length_map. Qed.

(** Two 17-digit numbers whose weighted sums differ modulo 11 get two
    different check characters. *)
Lemma getParityBit_neq id1 id2 :
  length id1 = 17%nat -> length id2 = 17%nat ->
  forallb is_digit id1 = true -> forallb is_digit id2 = true ->
  ((weighted_sum id1 - weighted_sum id2) mod 11 <> 0)%Z ->
  getParityBit id1 <> getParityBit id2.
Proof.
  intros Hl1 Hl2 Hd1 Hd2 Hne.
  rewrite !getParityBit_spec, !take_full by (rewrite ?take_full; (done || lia)).
  intros Heq. pose proof (ws_mod_range id1). pose proof (ws_mod_range id2).
  destruct (parityBit_char (Z.to_nat (weighted_sum id1 mod 11))) as (p1 & H1 & _); [lia|].
  rewrite H1 in Heq. symmetry in Heq.
  pose proof (NoDup_lookup _ _ _ _ NoDup_parityBit Heq H1). apply Hne, Z.cong_iff_0. lia.
Qed.

Lemma digits_distinct a b :
  is_digit a = true -> is_digit b = true -> a <> b ->
  (-9 <= digit_val a - digit_val b <= 9 /\ digit_val a - digit_val b <> 0)%Z.
Proof.
  intros Ha Hb Hne. pose proof (is_digit_range a Ha). pose proof (is_digit_range b Hb).
  split; [lia|]. intros E. apply Hne, digit_val_inj. lia.
Qed.

Lemma iso_weight_at j : (j < 17)%nat -> exists w, iso_weights !! j = Some w.
Proof. intros Hj. apply lookup_lt_is_Some_2. rewrite iso_weights_powers, length_powers. lia. Qed.

(** C4: A change of one of the 17 digits changes the check character. *)
Theorem getParityBit_detects_substitution p q a b :
  (length p + length q = 16)%nat ->
  forallb is_digit (p ++ a :: q) = true -> forallb is_digit (p ++ b :: q) = true -> a <> b ->
  getParityBit (p ++ a :: q) <> getParityBit (p ++ b :: q).
Proof.
  intros Hl Ha Hb Hne. pose proof Ha as Ha'. pose proof Hb as Hb'.
  rewrite forallb_app in Ha', Hb'. simpl in Ha', Hb'.
  apply andb_prop in Ha' as [_ Ha']. apply andb_prop in Ha' as [Hda _].
  apply andb_prop in Hb' as [_ Hb']. apply andb_prop in Hb' as [Hdb _].
  apply getParityBit_neq; rewrite ?length_app; simpl; try (done || lia).
  destruct (iso_weight_at (length p)) as [w Hw]; [lia|].
  rewrite !weighted_sum_app, (drop_S _ _ _ Hw). simpl.
  pose proof (digits_distinct a b ltac:(done) ltac:(done) Hne) as [Hr Hz].
  pose proof (forall_nat_range substitution_row 17 ltac:(vm_compute; reflexivity)
    (length p) ltac:(lia)) as Hrow.
  unfold substitution_row in Hrow. rewrite Hw in Hrow.
  pose proof (forall_Z_range _ (-9) 19 Hrow (digit_val a - digit_val b) ltac:(lia)) as H'.
  simpl in H'. destruct (Z.eqb_spec (digit_val a - digit_val b) 0); [done|].
  destruct (Z.eqb_spec (((digit_val a - digit_val b) * w) mod 11) 0); [done|].
  replace (_ - _)%Z with ((digit_val a - digit_val b) * w)%Z by ring. done.
Qed.

Lemma getParityBit_detects_substitution_witness :
  (length ‹"1101011990030"› + length ‹"123"› = 16)%nat /\
  forallb is_digit (‹"1101011990030"› ++ "4"%char :: ‹"123"›) = true /\
  forallb is_digit (‹"1101011990030"› ++ "5"%char :: ‹"123"›) = true /\ "4"%char <> "5"%char /\
  getParityBit (‹"1101011990030"› ++ "4"%char :: ‹"123"›) <>
  getParityBit (‹"1101011990030"› ++ "5"%char :: ‹"123"›).
Proof.
  do 3 (split; [reflexivity|]). split; [discriminate|].
  apply getParityBit_detects_substitution; (reflexivity || discriminate).
Defined.

(** C5: A swap of two adjacent different digits changes the check character. *)
Theorem getParityBit_detects_transposition p q a b :
  (length p + length q = 15)%nat ->
  forallb is_digit (p ++ a :: b :: q) = true -> a <> b ->
  getParityBit (p ++ a :: b :: q) <> getParityBit (p ++ b :: a :: q).
Proof.
  intros Hl Ha Hne. pose proof Ha as Ha'.
  rewrite forallb_app in Ha'. simpl in Ha'.
  apply andb_prop in Ha' as [Hp Ha']. apply andb_prop in Ha' as [Hda Ha'].
  apply andb_prop in Ha' as [Hdb Hq].
  apply getParityBit_neq; rewrite ?length_app; simpl; try lia; try done.
  { rewrite forallb_app. simpl. by rewrite Hp, Hda, Hdb, Hq. }
  destruct (iso_weight_at (length p)) as [w1 Hw1]; [lia|].
  destruct (iso_weight_at (S (length p))) as [w2 Hw2]; [lia|].
  rewrite !weighted_sum_app, (drop_S _ _ _ Hw1), (drop_S _ _ _ Hw2). simpl.
  pose proof (digits_distinct a b ltac:(done) ltac:(done) Hne) as [Hr Hz].
  pose proof (forall_nat_range transposition_row 16 ltac:(vm_compute; reflexivity)
    (length p) ltac:(lia)) as H'.
  unfold transposition_row in H'. rewrite Hw1, Hw2 in H'.
  pose proof (forall_Z_range _ (-9) 19 H' (digit_val a - digit_val b) ltac:(lia)) as H''.
  simpl in H''. destruct (Z.eqb_spec (digit_val a - digit_val b) 0); [done|].
  destruct (Z.eqb_spec (((digit_val a - digit_val b) * (w1 - w2)) mod 11) 0); [done|].
  replace (_ - _)%Z with ((digit_val a - digit_val b) * (w1 - w2))%Z by ring. done.
Qed.

Lemma getParityBit_detects_transposition_witness :
  (length ‹"1101011990030"› + length ‹"23"› = 15)%nat /\
  forallb is_digit (‹"1101011990030"› ++ "7"%char :: "1"%char :: ‹"23"›) = true /\
  "7"%char <> "1"%char /\
  getParityBit (‹"1101011990030"› ++ "7"%char :: "1"%char :: ‹"23"›) <>
  getParityBit (‹"1101011990030"› ++ "1"%char :: "7"%char :: ‹"23"›).
Proof.
  do 2 (split; [reflexivity|]). split; [discriminate|].
  apply getParityBit_detects_transposition; (reflexivity || discriminate).
Defined.

End Checksum.
