(* ===== verification/Validate.v ===== *)
(** The validating methods of [idCardNoUtil] ([src/js/idCardNoUtil.js],
    lines 88-171): [checkAddressCode], [checkBirthDayCode],
    [checkIdCardNo], [check15IdCardNo] and [check18IdCardNo], with the
    regular expressions they test.  [checkBirthDayCode] reads the clock
    ([new Date()]); the clock reading is the variable [now] of the
    section [WithClock], so that every validator takes it as its first
    argument.

    The theorems characterise each regular expression by the characters
    it accepts, each method on every branch, and show that the first
    filter of [checkIdCardNo] ([/^\d{15}|(\d{17}(\d|x|X))$/], whose [^]
    and [$] bind to one alternative each) rejects nothing that the
    length dispatch would accept. *)

From stdpp Require Import gmap.
From Stdlib Require Import Btauto.
From S2P Require Import Prelude JsString Regex JsDate Tables Checksum.
Import Js Regex JsDate Tables Checksum.

Module Validate.

(** ** The regular expressions of the source *)

(** The month group [((0[1-9])|(1[0-2]))] and the day group
    [((0[1-9])|([1-2][0-9])|(3[0-1]))] of lines 101, 151 and 164. *)
Definition re_month : regex :=
  RAlt (rcat [chr "0"; range "1" "9"]) (rcat [chr "1"; range "0" "2"]).
Definition re_day : regex :=
  RAlt (rcat [chr "0"; range "1" "9"])
    (RAlt (rcat [range "1" "2"; range "0" "9"]) (rcat [chr "3"; range "0" "1"])).

(** [(\d|x|X)]. *)
Definition re_check : regex := RAlt digit (RAlt (chr "x") (chr "X")).

(** [/^[1-9]\d{5}$/] (line 93). *)
Definition re_address : regex := anchored (rcat [range "1" "9"; RRep 5 digit]).

(** [/^[1-9]\d{3}((0[1-9])|(1[0-2]))((0[1-9])|([1-2][0-9])|(3[0-1]))$/]
    (line 101). *)
Definition re_birthday : regex :=
  anchored (rcat [range "1" "9"; RRep 3 digit; re_month; re_day]).

(** [/^\d{15}|(\d{17}(\d|x|X))$/] (line 136): the alternation binds
    weaker than [^] and [$], so this is [(^\d{15})|(\d{17}(\d|x|X)$)]. *)
Definition re_idcard : regex :=
  RAlt (RSeq RBol (RRep 15 digit)) (RSeq (RSeq (RRep 17 digit) re_check) REol).

(** [/^[1-9]\d{7}(month)(day)\d{3}$/] (line 151). *)
Definition re_id15 : regex :=
  anchored (rcat [range "1" "9"; RRep 7 digit; re_month; re_day; RRep 3 digit]).

(** [/^[1-9]\d{5}[1-9]\d{3}(month)(day)\d{3}(\d|x|X)$/] (line 164). *)
Definition re_id18 : regex :=
  anchored (rcat [range "1" "9"; RRep 5 digit; range "1" "9"; RRep 3 digit;
                  re_month; re_day; RRep 3 digit; re_check]).

(** ** The methods *)

(** [!!v]: a string is truthy when it is not empty; [undefined] is
    falsy. *)
Definition truthy_str (o : option jsstring) : bool :=
  match o with Some v => negb (bool_decide (v = [])) | None => false end.

(** [obj[n]] for a number [n] ([NaN] is not a key of the table). *)
Definition get_num (m : gmap Z jsstring) (n : jsnum) : option jsstring :=
  match n with Some z => m !! z | None => None end.

(** [checkAddressCode(addressCode)] (lines 92-94). *)
Definition checkAddressCode (addressCode : jsstring) : bool :=
  if negb (test re_address addressCode) then false
  else truthy_str (get_num provinceAndCitys (parseInt (substring addressCode 0 2) None)).

Section WithClock.

(** The value of [new Date()] when the method runs. *)
Variable now : date.

(** [checkBirthDayCode(birDayCode)] (lines 100-107).  A NaN field makes
    an invalid [Date], for which [>] and [==] are false, so the method
    returns [false]. *)
Definition checkBirthDayCode (birDayCode : jsstring) : bool :=
  if negb (test re_birthday birDayCode) then false else
  match parseInt (substring birDayCode 0 4) (Some 10%Z),
        parseInt (substring birDayCode 4 6) (Some 10%Z),
        parseInt (substring_from birDayCode 6) (Some 10%Z) with
  | Some yyyy, Some mm, Some dd =>
      let xdata := new_Date yyyy (mm - 1) dd in
      if date_gt xdata now then false
      else Z.eqb (getFullYear xdata) yyyy && Z.eqb (getMonth xdata) (mm - 1) &&
           Z.eqb (getDate xdata) dd
  | _, _, _ => false
  end.

(** [check15IdCardNo(idCardNo)] (lines 149-156). *)
Definition check15IdCardNo (idCardNo : jsstring) : bool :=
  if negb (test re_id15 idCardNo) then false
  else if negb (checkAddressCode (substring idCardNo 0 6)) then false
  else checkBirthDayCode (‹"19"› ++ substring idCardNo 6 12).

(** [check18IdCardNo(idCardNo)] (lines 162-171). *)
Definition check18IdCardNo (idCardNo : jsstring) : bool :=
  if negb (test re_id18 idCardNo) then false
  else if negb (checkAddressCode (substring idCardNo 0 6)) then false
  else if negb (checkBirthDayCode (substring idCardNo 6 14)) then false
  else checkParityBit idCardNo.

(** [checkIdCardNo(idCardNo)] (lines 134-143). *)
Definition checkIdCardNo (idCardNo : jsstring) : bool :=
  if negb (test re_idcard idCardNo) then false
  else match length idCardNo with
       | 15 => check15IdCardNo idCardNo
       | 18 => check18IdCardNo idCardNo
       | _ => false
       end.

End WithClock.

(** ** The conditions the methods decide *)

(** The value of a string of digits lies in [lo .. hi]. *)
Definition in_range (lo hi : Z) (w : jsstring) : bool :=
  (lo <=? digits_val w)%Z && (digits_val w <=? hi)%Z.

(** The value of the [n] digits from position [i]. *)
Definition field (w : jsstring) (i n : nat) : Z := digits_val (take n (drop i w)).

(** The first character is not [0] (the classes [[1-9]]). *)
Definition nz_head (w : jsstring) : bool :=
  match w with c :: _ => negb (c =? "0")%char | [] => false end.

(** A well-formed check character. *)
Definition check_ok (w : jsstring) : bool :=
  match w with [c] => match check_value c with Some _ => true | None => false end | _ => false end.

(** A birth date [y]-[m]-[d] ([m] from 1) the methods accept: a year of
    four digits, a day of the calendar, not after the day of the clock. *)
Definition born_ok (now : date) (y m d : Z) : bool :=
  (1000 <=? y)%Z && valid_ymd y (m - 1) d && ymd_le y (m - 1) d now.

(** The eighteenth character satisfies MOD 11-2 with the first 17. *)
Definition check_char_ok (s : jsstring) : bool :=
  match s !! 17%nat with Some c => mod11_2 (take 17 s) c | None => false end.

(** ** The regular expressions, character by character *)

#[local] Arguments digits_val : simpl never.

Lemma cls_nonzero x : cls_match (CRange "1" "9") x = is_digit x && negb (x =? "0")%char.
Proof.
  revert x. apply (forall_ascii_eq (cls_match (CRange "1" "9"))). vm_compute. reflexivity.
Qed.

Lemma width_month : width re_month = 2%nat.
Proof. reflexivity. Qed.
Lemma width_day : width re_day = 2%nat.
Proof. reflexivity. Qed.
Lemma width_check : width re_check = 1%nat.
Proof. reflexivity. Qed.

Lemma month_chars a b :
  accepts re_month [a; b] = is_digit a && is_digit b && in_range 1 12 [a; b].
Proof.
  revert a b. apply (forall_ascii2_eq (fun a b => accepts re_month [a; b])).
  vm_compute. reflexivity.
Qed.

Lemma day_chars a b :
  accepts re_day [a; b] = is_digit a && is_digit b && in_range 1 31 [a; b].
Proof.
  revert a b. apply (forall_ascii2_eq (fun a b => accepts re_day [a; b])).
  vm_compute. reflexivity.
Qed.

Lemma check_chars c : accepts re_check [c] = is_digit c || (c =? "x")%char || (c =? "X")%char.
Proof. simpl. unfold cls_match. btauto. Qed.

Lemma check_value_chars c :
  match check_value c with Some _ => true | None => false end =
  is_digit c || (c =? "x")%char || (c =? "X")%char.
Proof. unfold check_value. destruct (is_digit c), (c =? "x")%char, (c =? "X")%char; reflexivity. Qed.

(** Unfold a fixed-width pattern on a string of known characters, down
    to the classes and the month, day and check groups. *)
Ltac regex_chars :=
  cbn [accepts rcat rep_accepts width Nat.add Nat.mul firstn skipn range digit chr];
  rewrite ?width_month, ?width_day, ?width_check;
  cbn [accepts rcat rep_accepts width Nat.add Nat.mul firstn skipn range digit chr];
  rewrite ?month_chars, ?day_chars, ?check_chars, ?cls_nonzero; unfold cls_match.

(** Reduce [test (anchored p) w] to the characters of [w]. *)
Ltac anchored_chars w n :=
  rewrite test_anchored by reflexivity;
  cbn [width rcat range digit chr Nat.add Nat.mul];
  rewrite ?width_month, ?width_day, ?width_check; cbn [Nat.add];
  let H := fresh in
  destruct (Nat.eqb_spec (length w) n) as [H|H]; [|reflexivity];
  explode_list w; regex_chars;
  cbn [forallb firstn skipn nz_head check_ok]; rewrite ?check_value_chars.

Lemma test_re_address w :
  test re_address w = Nat.eqb (length w) 6 && forallb is_digit w && nz_head w.
Proof. unfold re_address. anchored_chars w 6. btauto. Qed.

Lemma test_re_birthday w :
  test re_birthday w =
  Nat.eqb (length w) 8 && forallb is_digit w && nz_head w &&
  in_range 1 12 (take 2 (drop 4 w)) && in_range 1 31 (drop 6 w).
Proof. unfold re_birthday. anchored_chars w 8. btauto. Qed.

Lemma test_re_id15 w :
  test re_id15 w =
  Nat.eqb (length w) 15 && forallb is_digit w && nz_head w &&
  in_range 1 12 (take 2 (drop 8 w)) && in_range 1 31 (take 2 (drop 10 w)).
Proof. unfold re_id15. anchored_chars w 15. btauto. Qed.

Lemma test_re_id18 w :
  test re_id18 w =
  Nat.eqb (length w) 18 && forallb is_digit (take 17 w) && nz_head w && nz_head (drop 6 w) &&
  in_range 1 12 (take 2 (drop 10 w)) && in_range 1 31 (take 2 (drop 12 w)) &&
  check_ok (drop 17 w).
Proof. unfold re_id18. anchored_chars w 18. btauto. Qed.

(** ** The outer filter of [checkIdCardNo] *)

(** [/^\d{15}|(\d{17}(\d|x|X))$/] accepts every string that starts with
    15 digits, whatever follows them. *)
Lemma test_re_idcard_prefix s :
  (15 <= length s)%nat -> forallb is_digit (take 15 s) = true -> test re_idcard s = true.
Proof.
  intros Hl Hd. unfold test, re_idcard. rewrite search_alt.
  change (search (RSeq RBol (RRep 15 digit)) 0 s) with (test (RSeq RBol (RRep 15 digit)) s).
  rewrite test_bol by reflexivity. simpl width. rewrite accepts_digits, Hd, length_take.
  destruct (Nat.eqb_spec (Nat.min 15 (length s)) 15); [done|lia].
Qed.

(** C13: The filter of [checkIdCardNo] as written accepts 15 digits followed
    by anything: its [$] binds to the 18-character alternative only. *)
Theorem re_idcard_accepts_suffix s t :
  length s = 15%nat -> forallb is_digit s = true -> test re_idcard (s ++ t) = true.
Proof.
  intros Hl Hd. apply test_re_idcard_prefix; [rewrite length_app; lia|].
  by rewrite take_app_exact.
Qed.

Lemma re_idcard_accepts_suffix_witness :
  length ‹"123456789012345"› = 15%nat /\ forallb is_digit ‹"123456789012345"› = true /\
  test re_idcard (‹"123456789012345"› ++ ‹"abc"›) = true.
Proof.
  split; [reflexivity|]. split; [reflexivity|]. apply re_idcard_accepts_suffix; reflexivity.
Defined.

Lemma match_15_18 {A} n (a b c : A) :
  n <> 15%nat -> n <> 18%nat ->
  match n with 15%nat => a | 18%nat => b | _ => c end = c.
Proof. intros H15 H18. do 19 (destruct n as [|n]; [reflexivity || lia|]). reflexivity. Qed.

(** The regular expression of [checkIdCardNo] (line 136) rejects no
    number that [check15IdCardNo] or [check18IdCardNo] accepts: the
    method is the dispatch on the length alone. *)
Theorem checkIdCardNo_dispatch now s :
  checkIdCardNo now s =
  if Nat.eqb (length s) 15 then check15IdCardNo now s
  else if Nat.eqb (length s) 18 then check18IdCardNo now s else false.
Proof.
  unfold checkIdCardNo.
  destruct (Nat.eqb_spec (length s) 15) as [H15|H15];
    [|destruct (Nat.eqb_spec (length s) 18) as [H18|H18]].
  - rewrite H15. destruct (test re_idcard s) eqn:Ht; [done|]. simpl.
    unfold check15IdCardNo. destruct (test re_id15 s) eqn:E; [|done]. exfalso.
    rewrite test_re_id15 in E. bool_to_prop.
    rewrite test_re_idcard_prefix in Ht; [done|lia|]. by rewrite take_full.
  - rewrite H18. destruct (test re_idcard s) eqn:Ht; [done|]. simpl.
    unfold check18IdCardNo. destruct (test re_id18 s) eqn:E; [|done]. exfalso.
    rewrite test_re_id18 in E. bool_to_prop.
    rewrite test_re_idcard_prefix in Ht; [done|lia|].
    rewrite <- (take_take_add s 15 2). simpl. apply forallb_forall. intros x Hx.
    rewrite forallb_forall in H5. apply H5. eapply list_elem_of_In, subseteq_take, list_elem_of_In, Hx.
  - rewrite match_15_18 by done. by destruct (test re_idcard s).
Qed.

(** ** [checkAddressCode] *)

(** A string of digits starts with a non-zero digit exactly when its
    value has as many digits as the string. *)
Lemma nz_head_value w :
  forallb is_digit w = true -> w <> [] ->
  nz_head w = (10 ^ Z.of_nat (length w - 1) <=? digits_val w)%Z.
Proof.
  destruct w as [|c r]; [done|]. intros Hd _. simpl in Hd. apply andb_prop in Hd as [Hc Hr].
  cbn [nz_head length]. replace (S (length r) - 1)%nat with (length r) by lia. rewrite digits_val_cons.
  pose proof (is_digit_range c Hc) as [Hcr _]. pose proof (digits_val_bound r Hr).
  pose proof (digit_val_zero c Hc) as Hz.
  destruct (Ascii.eqb_spec c "0") as [Hc0|Hne]; simpl.
  - symmetry. apply Z.leb_gt. assert (digit_val c = 0)%Z by tauto. nia.
  - symmetry. apply Z.leb_le. assert (digit_val c <> 0)%Z by tauto. nia.
Qed.

Lemma nz_head_take w n : (0 < n)%nat -> nz_head (take n w) = nz_head w.
Proof. intros Hn. destruct n as [|n]; [lia|]. by destruct w. Qed.

Lemma take_nonempty {A} (l : list A) n : (0 < n <= length l)%nat -> take n l <> [].
Proof. intros Hn E. apply (f_equal length) in E. rewrite length_take in E. simpl in E. lia. Qed.

#[export] Hint Extern 1 (take _ _ <> []) => apply take_nonempty; len : idcard.

Lemma province_codes_ge z : z ∈ province_codes -> (11 <= z)%Z.
Proof.
  intros Hz. assert (H : Forall (fun z => 11 <= z)%Z province_codes) by eval_decide.
  rewrite Forall_forall in H. by apply H.
Qed.

(** [!!this.provinceAndCitys[z]] holds exactly for the codes of the table. *)
Lemma truthy_province z :
  truthy_str (provinceAndCitys !! z) = bool_decide (z ∈ province_codes).
Proof.
  destruct (provinceAndCitys !! z) as [v|] eqn:E; simpl.
  - pose proof (map_Forall_lookup_1 _ _ _ _ provinceAndCitys_nonempty E) as Hv. simpl in Hv.
    rewrite bool_decide_false by done. symmetry. apply bool_decide_true.
    apply provinceAndCitys_is_Some. by eexists.
  - symmetry. apply bool_decide_false. rewrite <- provinceAndCitys_is_Some, E. by intros [? ?].
Qed.

(** [checkAddressCode] accepts six digits whose first two are a code of
    the province table. *)
Theorem checkAddressCode_spec w :
  checkAddressCode w =
  Nat.eqb (length w) 6 && forallb is_digit w && bool_decide (field w 0 2 ∈ province_codes).
Proof.
  change (field w 0 2) with (digits_val (take 2 w)).
  unfold checkAddressCode. rewrite test_re_address.
  destruct (Nat.eqb_spec (length w) 6) as [Hl|]; [|done].
  destruct (forallb is_digit w) eqn:Hd; [|done]. simpl.
  rewrite substring_spec by lia. rewrite drop_0, Nat.sub_0_r.
  rewrite parseInt_digits by (by left || side).
  simpl get_num. rewrite truthy_province.
  rewrite <- (nz_head_take w 2), nz_head_value by
    side.
  rewrite length_take, Hl. simpl.
  case_bool_decide as Hin; [|by destruct (_ <=? _)%Z].
  apply province_codes_ge in Hin. change (10 ^ Z.of_nat 1)%Z with 10%Z.
  by destruct (Z.leb_spec 10 (digits_val (take 2 w))); [|lia].
Qed.

(** ** [checkBirthDayCode], [check15IdCardNo], [check18IdCardNo] *)

Lemma parseInt_slice w i n r :
  forallb is_digit w = true -> (0 < n)%nat -> (i + n <= length w)%nat ->
  r = None \/ r = Some 10%Z ->
  parseInt (substring w i (i + n)) r = Some (field w i n).
Proof.
  intros Hd Hn Hl Hr. rewrite substring_spec, Nat.add_sub_swap, Nat.sub_diag by lia.
  apply parseInt_digits; [done| |by apply forallb_take, forallb_drop].
  apply take_nonempty. len.
Qed.

Lemma nz_head_field w n :
  (0 < n <= length w)%nat -> forallb is_digit w = true ->
  nz_head w = (10 ^ Z.of_nat (n - 1) <=? field w 0 n)%Z.
Proof.
  intros Hn Hd. unfold field. rewrite drop_0, <- (nz_head_take w n), nz_head_value
    by side.
  by rewrite length_take, Nat.min_l by lia.
Qed.

Lemma field_take w k i n : (i + n <= k)%nat -> field (take k w) i n = field w i n.
Proof. intros H. unfold field. by rewrite skipn_firstn_comm, take_take, Nat.min_l by lia. Qed.

Lemma field_drop w a i n : field (drop a w) i n = field w (a + i) n.
Proof. unfold field. by rewrite drop_drop. Qed.

Lemma field_app_r p u i n : (length p <= i)%nat -> field (p ++ u) i n = field u (i - length p) n.
Proof. intros H. unfold field. by rewrite drop_app_ge. Qed.

Lemma field_app_l p u i n : (i + n <= length p)%nat -> field (p ++ u) i n = field p i n.
Proof. intros H. unfold field. by rewrite drop_app_le, take_app_le by len. Qed.

Lemma nz_head_app l u : (0 < length l)%nat -> nz_head (l ++ u) = nz_head l.
Proof. by destruct l; [simpl; lia|]. Qed.

Lemma field_19 u : (2 <= length u)%nat -> field (‹"19"› ++ u) 0 4 = (1900 + field u 0 2)%Z.
Proof.
  intros H. unfold field. rewrite !drop_0, take_app_ge by (simpl; lia). rewrite digits_val_app.
  rewrite length_take, Nat.min_l by (simpl; lia). reflexivity.
Qed.

Lemma born_ok_ranges now y m d :
  born_ok now y m d = true -> (1000 <= y /\ 1 <= m <= 12 /\ 1 <= d <= 31)%Z.
Proof.
  unfold born_ok. intros H. apply andb_prop in H as [H _]. apply andb_prop in H as [Hy Hv].
  apply Z.leb_le in Hy. apply valid_ymd_spec in Hv. pose proof (days_in_month_bounds y (m - 1)). lia.
Qed.

Lemma nz_head_drop_field w i n :
  (0 < n)%nat -> (i + n <= length w)%nat -> forallb is_digit (take (i + n) w) = true ->
  nz_head (drop i w) = (10 ^ Z.of_nat (n - 1) <=? field w i n)%Z.
Proof.
  intros Hn Hl Hd. rewrite <- (nz_head_take (drop i w) n), nz_head_value by
    (done || (rewrite take_drop_commute; by apply forallb_drop) ||
     (apply take_nonempty; len)).
  by rewrite length_take, length_drop, Nat.min_l by lia.
Qed.

Theorem checkBirthDayCode_spec now w :
  (0 <= ms now)%Z ->
  checkBirthDayCode now w =
  Nat.eqb (length w) 8 && forallb is_digit w && born_ok now (field w 0 4) (field w 4 2) (field w 6 2).
Proof.
  intros Hms. unfold checkBirthDayCode, born_ok. rewrite test_re_birthday.
  destruct (Nat.eqb_spec (length w) 8) as [Hl|]; [|done].
  destruct (forallb is_digit w) eqn:Hd; [|done].
  rewrite (nz_head_field w 4) by (done || lia). cbn [andb negb].
  replace (drop 6 w) with (take 2 (drop 6 w)) by (apply take_full; len).
  unfold substring_from. rewrite Hl.
  rewrite (parseInt_slice w 0 4), (parseInt_slice w 4 2), (parseInt_slice w 6 2)
    by (done || lia || by right).
  change (take 4 (drop 0 w)) with (take 4 w).
  fold (field w 4 2) (field w 6 2). unfold in_range. fold (field w 4 2) (field w 6 2).
  change (10 ^ Z.of_nat (4 - 1))%Z with 1000%Z.
  set (y := field w 0 4). set (m := field w 4 2). set (d := field w 6 2).
  pose proof (days_in_month_bounds y (m - 1)).
  destruct (Z.leb_spec 1000 y), (Z.leb_spec 1 m), (Z.leb_spec m 12), (Z.leb_spec 1 d),
    (Z.leb_spec d 31); simpl;
    try (destruct (valid_ymd y (m - 1) d) eqn:E; [apply valid_ymd_spec in E; lia|done]).
  rewrite new_Date_fields by lia.
  destruct (Z.leb_spec d (days_in_month y (m - 1))).
  - assert (Hv : valid_ymd y (m - 1) d = true) by (apply valid_ymd_spec; lia).
    rewrite new_Date_exact, date_gt_midnight, Hv by (done || lia).
    by destruct (ymd_le y (m - 1) d now).
  - replace (valid_ymd y (m - 1) d) with false by (symmetry; apply not_true_iff_false;
      rewrite valid_ymd_spec; lia).
    by destruct (date_gt _ _).
Qed.


(** The three numbers [checkBirthDayCode] reads from a string its
    regular expression accepts, and their ranges. *)
Lemma re_birthday_fields w :
  test re_birthday w = true ->
  parseInt (substring w 0 4) (Some 10%Z) = Some (field w 0 4) /\
  parseInt (substring w 4 6) (Some 10%Z) = Some (field w 4 2) /\
  parseInt (substring_from w 6) (Some 10%Z) = Some (field w 6 2) /\
  (1000 <= field w 0 4 <= 9999 /\ 1 <= field w 4 2 <= 12 /\ 1 <= field w 6 2 <= 31)%Z.
Proof.
  rewrite test_re_birthday. intros H. bool_to_prop. apply Nat.eqb_eq in H as Hl.
  replace (drop 6 w) with (take 2 (drop 6 w)) in H0 by (apply take_full; len).
  rewrite (nz_head_field w 4) in H2 by (done || lia).
  unfold in_range in H0, H1. fold (field w 4 2) (field w 6 2) in H0, H1.
  rewrite !andb_true_iff, !Z.leb_le in H0, H1. apply Z.leb_le in H2.
  pose proof (digits_val_bound (take 4 (drop 0 w)) ltac:(side)) as Hy.
  rewrite length_take, length_drop, Hl in Hy. fold (field w 0 4) in Hy.
  unfold substring_from. rewrite Hl.
  rewrite (parseInt_slice w 0 4), (parseInt_slice w 4 2), (parseInt_slice w 6 2)
    by (done || lia || by right).
  cbn in H2, Hy. repeat split; (done || lia).
Qed.

Theorem check15IdCardNo_spec now s :
  (0 <= ms now)%Z ->
  check15IdCardNo now s =
  Nat.eqb (length s) 15 && forallb is_digit s &&
  bool_decide (field s 0 2 ∈ province_codes) &&
  born_ok now (1900 + field s 6 2) (field s 8 2) (field s 10 2).
Proof.
  intros Hms. unfold check15IdCardNo. rewrite test_re_id15.
  destruct (Nat.eqb_spec (length s) 15) as [Hl|]; [|done].
  destruct (forallb is_digit s) eqn:Hd; [|done].
  rewrite (nz_head_field s 2) by (done || lia). cbn [andb negb].
  rewrite checkAddressCode_spec, checkBirthDayCode_spec by done.
  rewrite !substring_spec, !drop_0 by lia.
  rewrite field_take, field_19, !field_app_r, !field_take, !field_drop by
    (simpl; rewrite ?length_take, ?length_drop; lia).
  rewrite length_app, !length_take, length_drop, Hl, forallb_app.
  rewrite !forallb_take by (done || by apply forallb_drop). simpl.
  unfold in_range. fold (field s 8 2) (field s 10 2). change (10 ^ Z.of_nat 1)%Z with 10%Z.
  destruct (bool_decide _) eqn:Hp; [apply bool_decide_eq_true_1, province_codes_ge in Hp|by destruct (_ && _)].
  destruct (born_ok _ _ _ _) eqn:Hb; [apply born_ok_ranges in Hb|by destruct (_ && _)].
  by rewrite !(proj2 (Z.leb_le _ _)) by lia.
Qed.

Theorem check18IdCardNo_spec now s :
  (0 <= ms now)%Z ->
  check18IdCardNo now s =
  Nat.eqb (length s) 18 && forallb is_digit (take 17 s) &&
  bool_decide (field s 0 2 ∈ province_codes) &&
  born_ok now (field s 6 4) (field s 10 2) (field s 12 2) && check_char_ok s.
Proof.
  intros Hms. unfold check18IdCardNo. rewrite test_re_id18.
  destruct (Nat.eqb_spec (length s) 18) as [Hl|]; [|done].
  destruct (exists_last (l:=s)) as (id17 & c & ->); [by intros ->|].
  rewrite length_app in Hl. simpl in Hl. assert (H17 : length id17 = 17%nat) by lia. clear Hl.
  rewrite !take_app_exact, (drop_app_length' id17 [c] 17) by done.
  destruct (forallb is_digit id17) eqn:Hd; [|done].
  rewrite !drop_app_le, !take_app_le, !field_app_l, !nz_head_app by len.
  change (nz_head id17) with (nz_head (drop 0 id17)).
  rewrite (nz_head_drop_field id17 0 2), (nz_head_drop_field id17 6 4) by side.
  rewrite checkAddressCode_spec, checkBirthDayCode_spec by done.
  rewrite !substring_spec by len.
  cbn [Nat.sub]. rewrite drop_0, !field_take, !field_drop by lia. cbn [Nat.add].
  rewrite !drop_app_le, !take_app_le, !field_app_l by len.
  rewrite !length_take, ?length_drop, ?H17, (forallb_take _ _ _ Hd), (forallb_take _ _ _ (forallb_drop _ _ 6 Hd)).
  rewrite checkParityBit_spec by done.
  unfold check_char_ok. rewrite lookup_app_r, H17, Nat.sub_diag, take_app_exact by lia. simpl.
  unfold in_range. fold (field id17 10 2) (field id17 12 2).
  change (10 ^ Z.of_nat (2 - 1))%Z with 10%Z. change (10 ^ Z.of_nat (4 - 1))%Z with 1000%Z.
  destruct (bool_decide _) eqn:Hp; [apply bool_decide_eq_true_1, province_codes_ge in Hp|by destruct (_ && _)].
  destruct (born_ok _ _ _ _) eqn:Hb; [apply born_ok_ranges in Hb|by destruct (_ && _)].
  destruct (mod11_2 id17 c) eqn:Hm; [|by destruct (_ && _)].
  unfold mod11_2 in Hm. destruct (check_value c); [|done].
  by rewrite !(proj2 (Z.leb_le _ _)) by lia.
Qed.

(** ** The dates [checkBirthDayCode] builds *)

(** On every string its regular expression accepts, the [Date] that
    [checkBirthDayCode] builds, [new Date(yyyy, mm - 1, dd)], is reached
    by the day iteration within 31 steps: every fuel from 31 gives the
    same day, so the model of [new Date] terminates on these inputs with
    the fuel it is given. *)
Lemma checkBirthDayCode_date_fuel w :
  test re_birthday w = true ->
  exists yyyy mm dd,
    parseInt (substring w 0 4) (Some 10%Z) = Some yyyy /\
    parseInt (substring w 4 6) (Some 10%Z) = Some mm /\
    parseInt (substring_from w 6) (Some 10%Z) = Some dd /\
    forall fuel, (31 <= fuel)%nat ->
      add_days fuel yyyy (mm - 1) 1 (dd - 1) =
      (getFullYear (new_Date yyyy (mm - 1) dd), getMonth (new_Date yyyy (mm - 1) dd),
       getDate (new_Date yyyy (mm - 1) dd)).
Proof.
  intros H. destruct (re_birthday_fields w H) as (Hy & Hm & Hd & Ry & Rm & Rd).
  exists (field w 0 4), (field w 4 2), (field w 6 2). do 3 (split; [done|]).
  intros fuel Hf. pose proof (new_Date_fuel (field w 0 4) (field w 4 2 - 1) (field w 6 2) fuel ltac:(lia)) as E.
  cbv zeta in E. unfold getFullYear, getMonth, getDate. rewrite <- E. f_equal.
  - destruct (Z.leb_spec 0 (field w 0 4)), (Z.leb_spec (field w 0 4) 99); simpl; try lia.
    rewrite Z.div_small by lia. lia.
  - rewrite Z.mod_small; lia.
Qed.

(** On every string its regular expression accepts, the [Date] that
    [checkBirthDayCode] builds lies within [8.64e15] ms of the epoch, the
    range of [TimeClip]: the method never builds an invalid [Date] for a
    string that passes the pattern, which the model does not represent. *)
Lemma checkBirthDayCode_time_clip w :
  test re_birthday w = true ->
  exists yyyy mm dd,
    parseInt (substring w 0 4) (Some 10%Z) = Some yyyy /\
    parseInt (substring w 4 6) (Some 10%Z) = Some mm /\
    parseInt (substring_from w 6) (Some 10%Z) = Some dd /\
    (Z.abs (time_value (new_Date yyyy (mm - 1) dd) - time_value epoch) <= 8640000000000000)%Z.
Proof.
  intros H. destruct (re_birthday_fields w H) as (Hy & Hm & Hd & Ry & Rm & Rd).
  exists (field w 0 4), (field w 4 2), (field w 6 2). do 3 (split; [done|]).
  apply new_Date_time_clip; lia.
Qed.

End Validate.
