(* ===== verification/Trace.v ===== *)
(** The effects of the validator: the reads of the clock by [new Date()]
    in [checkBirthDayCode] (line 106 of [src/js/idCardNoUtil.js]) and the
    order of the method calls of [checkIdCardNo], [check15IdCardNo] and
    [check18IdCardNo] (lines 134-171), with their early returns.

    The methods run in a state monad: the state counts the clock reads
    done and keeps the events of the run in order; the clock is a
    function from the number of the read to the date it returns.  The
    theorems show that a validation reads the clock at most once and
    returns what the model of [Validate], with the clock fixed to that
    reading, returns; and that [check18IdCardNo] runs its checks in the
    order of the source, each only when the earlier ones passed. *)

From stdpp Require Import gmap.
From S2P Require Import Prelude JsString Regex JsDate Tables Checksum Validate.
Import Js Regex JsDate Tables Checksum Validate.

Module Trace.

(** The methods whose calls are recorded. *)
Inductive method := MCheck15 | MCheck18 | MAddress | MBirthDay | MParity.

(** An event of a run: a method call, or a read of the clock. *)
Inductive event := Call (m : method) | ReadClock.

#[export] Instance method_eq_dec : EqDecision method.
Proof. solve_decision. Defined.
#[export] Instance event_eq_dec : EqDecision event.
Proof. solve_decision. Defined.

(** The state of a run: the clock reads done, and the events so far. *)
Record st := mkSt { reads : nat; log : list event }.

(** The state monad of the runs. *)
Definition M (A : Type) : Type := st -> A * st.

#[export] Instance M_ret : MRet M := fun _ a s => (a, s).
#[export] Instance M_bind : MBind M := fun _ _ f m s => let '(a, s') := m s in f a s'.

Definition emit (e : event) : M unit := fun s => (tt, mkSt (reads s) (log s ++ [e])).

Section Run.

(** The date the clock gives at its [n]-th read. *)
Variable clock : nat -> date.

(** [new Date()]: the next reading of the clock. *)
Definition new_Date_now : M date :=
  fun s => (clock (reads s), mkSt (S (reads s)) (log s ++ [ReadClock])).

(** [checkAddressCode(addressCode)] (lines 92-94): no clock read. *)
Definition checkAddressCode_m (addressCode : jsstring) : M bool :=
  emit (Call MAddress);; mret (checkAddressCode addressCode).

(** [checkBirthDayCode(birDayCode)] (lines 100-107): after the regular
    expression, [xdata > new Date()] reads the clock once, whatever the
    numbers parsed; the result is the method of [Validate] with the clock
    fixed to that reading. *)
Definition checkBirthDayCode_m (birDayCode : jsstring) : M bool :=
  emit (Call MBirthDay);;
  if negb (test re_birthday birDayCode) then mret false else
  now ← new_Date_now;
  mret (checkBirthDayCode now birDayCode).

(** [checkParityBit(idCardNo)] (lines 126-128): no clock read. *)
Definition checkParityBit_m (idCardNo : jsstring) : M bool :=
  emit (Call MParity);; mret (checkParityBit idCardNo).

(** [check15IdCardNo(idCardNo)] (lines 149-156). *)
Definition check15IdCardNo_m (idCardNo : jsstring) : M bool :=
  emit (Call MCheck15);;
  if negb (test re_id15 idCardNo) then mret false else
  a ← checkAddressCode_m (substring idCardNo 0 6);
  if negb a then mret false else
  checkBirthDayCode_m (‹"19"› ++ substring idCardNo 6 12).

(** [check18IdCardNo(idCardNo)] (lines 162-171). *)
Definition check18IdCardNo_m (idCardNo : jsstring) : M bool :=
  emit (Call MCheck18);;
  if negb (test re_id18 idCardNo) then mret false else
  a ← checkAddressCode_m (substring idCardNo 0 6);
  if negb a then mret false else
  b ← checkBirthDayCode_m (substring idCardNo 6 14);
  if negb b then mret false else
  checkParityBit_m idCardNo.

(** [checkIdCardNo(idCardNo)] (lines 134-143). *)
Definition checkIdCardNo_m (idCardNo : jsstring) : M bool :=
  if negb (test re_idcard idCardNo) then mret false else
  match length idCardNo with
  | 15 => check15IdCardNo_m idCardNo
  | 18 => check18IdCardNo_m idCardNo
  | _ => mret false
  end.

End Run.

(** ** Runs of the methods *)

Create HintDb trace.

#[local] Hint Unfold emit new_Date_now checkAddressCode_m checkBirthDayCode_m checkParityBit_m
  mbind mret M_bind M_ret : trace.

(** [run_simpl] unfolds the monad and the leaf methods of a run. *)
Ltac run_simpl := autounfold with trace; cbn -[checkAddressCode checkBirthDayCode checkParityBit
  test re_birthday re_id15 re_id18 re_idcard substring].

Lemma checkBirthDayCode_not_re now w : test re_birthday w = false -> checkBirthDayCode now w = false.
Proof. intros H. unfold checkBirthDayCode. by rewrite H. Qed.

(** [run_cases] follows every branch of a run. *)
Ltac run_cases :=
  repeat (match goal with
          | |- context [if negb ?b then _ else _] => destruct b eqn:?
          | |- context [if ?b then _ else _] => destruct b eqn:?
          end; cbn [negb reads log]; rewrite ?checkBirthDayCode_not_re by done).

(** A run of [checkBirthDayCode] returns the method of [Validate] at the
    next reading of the clock, and reads the clock at most once. *)
Lemma checkBirthDayCode_m_run clock w s :
  (checkBirthDayCode_m clock w s).1 = checkBirthDayCode (clock (reads s)) w /\
  reads (checkBirthDayCode_m clock w s).2 = (if test re_birthday w then S (reads s) else reads s) /\
  log (checkBirthDayCode_m clock w s).2 =
    log s ++ Call MBirthDay :: (if test re_birthday w then [ReadClock] else []).
Proof.
  run_simpl. destruct (test re_birthday w) eqn:E; simpl.
  - by rewrite <- app_assoc.
  - rewrite checkBirthDayCode_not_re by done. done.
Qed.

Lemma check15IdCardNo_m_run clock s st :
  (check15IdCardNo_m clock s st).1 = check15IdCardNo (clock (reads st)) s /\
  (reads st <= reads (check15IdCardNo_m clock s st).2 <= S (reads st))%nat.
Proof.
  unfold check15IdCardNo_m, check15IdCardNo. run_simpl. run_cases; simpl; split; (done || lia).
Qed.

Lemma check18IdCardNo_m_run clock s st :
  (check18IdCardNo_m clock s st).1 = check18IdCardNo (clock (reads st)) s /\
  (reads st <= reads (check18IdCardNo_m clock s st).2 <= S (reads st))%nat.
Proof.
  unfold check18IdCardNo_m, check18IdCardNo. run_simpl. run_cases; simpl; split; (done || lia).
Qed.

(** ** The clock and the order of the checks *)

(** C19: A run of [checkIdCardNo] reads the clock at most once, and returns
    what [checkIdCardNo] of [Validate] returns with [new Date()] fixed to
    the clock's next reading: the code calls [new Date()] anew in each
    [checkBirthDayCode], and a single clock value models it faithfully. *)
Theorem checkIdCardNo_one_clock_read clock s st :
  (checkIdCardNo_m clock s st).1 = checkIdCardNo (clock (reads st)) s /\
  (reads st <= reads (checkIdCardNo_m clock s st).2 <= S (reads st))%nat.
Proof.
  unfold checkIdCardNo_m, checkIdCardNo. destruct (test re_idcard s); simpl; [|split; [done|lia]].
  destruct (decide (length s = 15%nat)) as [E|H15]; [rewrite E; apply check15IdCardNo_m_run|].
  destruct (decide (length s = 18%nat)) as [E|H18]; [rewrite E; apply check18IdCardNo_m_run|].
  rewrite !match_15_18 by done. simpl. split; [done|lia].
Qed.

(** The events of a run of [check18IdCardNo] that goes to the end. *)
Definition check18_events : list event :=
  [Call MCheck18; Call MAddress; Call MBirthDay; ReadClock; Call MParity].

(** C20: [check18IdCardNo] runs its checks in the order of the source: the
    pattern, then [checkAddressCode], then [checkBirthDayCode] (which
    reads the clock after its own pattern), then [checkParityBit].  The
    run stops after [k] of the events of [check18_events], and it goes
    past each check exactly when that check and all the earlier ones
    passed; its result is [checkParityBit] when it runs to the end and
    [false] otherwise. *)
Theorem check18IdCardNo_m_order clock s st :
  exists k, log (check18IdCardNo_m clock s st).2 = log st ++ take k check18_events /\
    ((2 <= k)%nat <-> test re_id18 s = true) /\
    ((3 <= k)%nat <-> test re_id18 s = true /\ checkAddressCode (substring s 0 6) = true) /\
    ((4 <= k)%nat <-> test re_id18 s = true /\ checkAddressCode (substring s 0 6) = true /\
                      test re_birthday (substring s 6 14) = true) /\
    ((5 <= k)%nat <-> test re_id18 s = true /\ checkAddressCode (substring s 0 6) = true /\
                      checkBirthDayCode (clock (reads st)) (substring s 6 14) = true) /\
    (check18IdCardNo_m clock s st).1 = (if decide (k = 5%nat) then checkParityBit s else false).
Proof.
  unfold check18IdCardNo_m. run_simpl. run_cases; simpl; rewrite <- ?app_assoc;
    [exists 5%nat | exists 4%nat | exists 3%nat | exists 2%nat | exists 1%nat];
    (split; [reflexivity|]); repeat split; intros; destruct_and?; (done || lia || congruence).
Qed.

End Trace.
