(* ===== verification/Convert.v ===== *)
(** The conversions of [idCardNoUtil] ([src/js/idCardNoUtil.js], lines
    173-228): [formateDateCN], [getIdCardInfo], [getId15] (18 to 15
    characters) and [getId18] (15 to 18 characters).  [null] and
    [undefined] results are [None].

    The theorems show the round trips between the two formats (15 to 18
    to 15 is the identity exactly on strings of digits; 18 to 15 to 18
    is the identity exactly when the century is [19] and the check
    character is not a lower case [x]), that [getId18] turns a valid
    15-character number into a valid 18-character one, what
    [getIdCardInfo] extracts, the gender of a non-digit included, that
    [getId18] keeps that information and [getId15] keeps it exactly for
    the century [19], and that the birthday reported for a number
    [checkIdCardNo] accepts is a date [checkBirthDayCode] accepts. *)

From stdpp Require Import gmap.
From Stdlib Require Import Btauto.
From S2P Require Import Prelude JsString Regex JsDate Tables Checksum Validate.
Import Js JsDate Tables Checksum Validate.

Module Convert.

(** [formateDateCN(day)] (lines 177-179). *)
Definition formateDateCN (day : jsstring) : jsstring :=
  substring day 0 4 ++ ‹"-"› ++ substring day 4 6 ++ ‹"-"› ++ substring_from day 6.

(** The object [{ birthday, gender }] of [getIdCardInfo]. *)
Record id_info := mkInfo { birthday : jsstring; gender : jsstring }.

(** [parseInt(c) % 2 == 0 ? this.genders.female : this.genders.male]
    (lines 190 and 195). *)
Definition gender_of (c : jsstring) : jsstring :=
  if num_eqb (num_rem (parseInt c None) (Some 2%Z)) (Some 0%Z)
  then female genders else male genders.

(** [getIdCardInfo(idCardNo)] (lines 185-200); the [switch] has no
    [default], so other lengths give [undefined]. *)
Definition getIdCardInfo (idCardNo : jsstring) : option id_info :=
  match length idCardNo with
  | 15 => Some (mkInfo (formateDateCN (‹"19"› ++ substring idCardNo 6 12))
                       (gender_of (charAt idCardNo 14)))
  | 18 => Some (mkInfo (formateDateCN (substring idCardNo 6 14))
                       (gender_of (charAt idCardNo 16)))
  | _ => None
  end.

(** [getId15(idCardNo)] (lines 206-212). *)
Definition getId15 (idCardNo : jsstring) : option jsstring :=
  match length idCardNo with
  | 15 => Some idCardNo
  | 18 => Some (substring idCardNo 0 6 ++ substring idCardNo 8 17)
  | _ => None
  end.

(** [getId18(idCardNo)] (lines 218-228): [id17 + this.getParityBit(id17)]
    appends ["undefined"] when the check character is [undefined]. *)
Definition getId18 (idCardNo : jsstring) : option jsstring :=
  match length idCardNo with
  | 15 =>
      let id17 := substring idCardNo 0 6 ++ ‹"19"› ++ substring_from idCardNo 6 in
      Some (concat_opt id17 (getParityBit id17))
  | 18 => Some idCardNo
  | _ => None
  end.

(** ** [getParityBit] on a non-digit *)

#[local] Arguments digits_val : simpl never.

(** [parseInt] of one character in radix ten is NaN unless it is a
    digit. *)
Lemma parseInt_nondigit c : is_digit c = false -> parseInt [c] (Some 10%Z) = None.
Proof.
  revert c. assert (H : forall c, is_digit c || bool_decide (parseInt [c] (Some 10%Z) = None) = true).
  { apply forall_ascii. vm_compute. reflexivity. }
  intros c Hc. specialize (H c). rewrite Hc in H. by apply bool_decide_eq_true_1 in H.
Qed.

(** A fold that stays NaN once NaN, and meets a step that is NaN. *)
Lemma fold_left_none {A} (f : option A -> nat -> option A) l i acc :
  (forall j, f None j = None) -> (forall a, f a i = None) -> i ∈ l ->
  fold_left f l acc = None.
Proof.
  intros Hn Hi Hl. revert acc. induction l as [|j l IH]; intros acc; [by apply elem_of_nil in Hl|].
  simpl. apply elem_of_cons in Hl as [->|Hl].
  - rewrite Hi. clear IH. induction l as [|k l IHl]; simpl; [done|]. by rewrite Hn.
  - by apply IH.
Qed.

(** A non-digit among the first 17 characters makes the check
    character [undefined]. *)
Lemma getParityBit_nondigit id17 :
  length id17 = 17%nat -> forallb is_digit id17 = false -> getParityBit id17 = None.
Proof.
  intros Hl Hd. destruct (forallb_false_lookup _ _ Hd) as (i & c & Hi & Hnd).
  unfold getParityBit. rewrite substring_spec, drop_0, Nat.sub_0_r, take_full by lia.
  rewrite (fold_left_none _ _ i).
  - done.
  - by intros j.
  - intros a. unfold power_step. rewrite (charAt_lookup _ _ _ Hi), parseInt_nondigit by done.
    by destruct a.
  - apply list_elem_of_In, in_seq. apply lookup_lt_Some in Hi. lia.
Qed.

(** ** The two conversions on their lengths *)

(** The 17 characters [getId18] builds: the century [19] inserted after
    the address code. *)
Lemma getId18_15 s :
  length s = 15%nat ->
  getId18 s = Some (concat_opt (take 6 s ++ ‹"19"› ++ drop 6 s)
                               (getParityBit (take 6 s ++ ‹"19"› ++ drop 6 s))).
Proof.
  intros Hl. unfold getId18, substring_from. rewrite Hl. simpl.
  rewrite !substring_spec by lia. by rewrite drop_0, (take_full (drop 6 s)) by len.
Qed.

Lemma getId15_18 t : length t = 18%nat -> getId15 t = Some (take 6 t ++ take 9 (drop 8 t)).
Proof. intros Hl. unfold getId15. rewrite Hl. simpl. by rewrite !substring_spec by lia. Qed.

Lemma length_id17 s : length s = 15%nat -> length (take 6 s ++ ‹"19"› ++ drop 6 s) = 17%nat.
Proof. intros Hl. len. Qed.

Lemma forallb_id17 s :
  forallb is_digit (take 6 s ++ ‹"19"› ++ drop 6 s) = forallb is_digit s.
Proof. rewrite !forallb_app. simpl. rewrite <- (take_drop 6 s) at 3. rewrite forallb_app. btauto. Qed.

(** ** Round trips *)

(** 15 digits go through [getId18] and back unchanged. *)
Lemma getId15_getId18_digits s :
  length s = 15%nat -> forallb is_digit s = true -> getId18 s ≫= getId15 = Some s.
Proof.
  intros Hl Hd. rewrite getId18_15 by done. cbn [mbind option_bind].
  destruct (getParityBit_check (take 6 s ++ ‹"19"› ++ drop 6 s)) as (pc & Hpc & _);
    [by apply length_id17 | by rewrite forallb_id17|].
  rewrite Hpc. unfold concat_opt. cbn [default from_option id].
  replace ((take 6 s ++ ‹"19"› ++ drop 6 s) ++ [pc])
    with ((take 6 s ++ ‹"19"›) ++ (drop 6 s ++ [pc])) by (by rewrite <- !app_assoc).
  assert (H8 : length (take 6 s ++ ‹"19"›) = 8%nat) by len.
  assert (H9 : length (drop 6 s) = 9%nat) by len.
  rewrite getId15_18 by len. f_equal.
  rewrite take_app_le, take_app_le, take_idemp, drop_app_length', take_app_length' by
    (rewrite ?H8, ?H9, ?length_take, ?Hl; lia).
  apply take_drop.
Qed.

(** A string of 15 characters that are not all digits gets the check
    character ["undefined"]: [getId18] returns 26 characters. *)
Lemma getId18_undefined s :
  length s = 15%nat -> forallb is_digit s = false ->
  getId18 s = Some (take 6 s ++ ‹"19"› ++ drop 6 s ++ ‹"undefined"›).
Proof.
  intros Hl Hd. rewrite getId18_15 by done.
  rewrite getParityBit_nondigit; [|by apply length_id17|by rewrite forallb_id17].
  unfold concat_opt. cbn [default from_option id]. by rewrite <- !app_assoc.
Qed.

(** C8: 15 to 18 to 15 characters gives back a string of 15 digits, and
    nothing ([getId15] of a 26-character string ending in
    ["undefined"]) when one of them is not a digit. *)
Theorem getId15_getId18 s :
  length s = 15%nat ->
  getId18 s ≫= getId15 = if forallb is_digit s then Some s else None.
Proof.
  intros Hl. destruct (forallb is_digit s) eqn:Hd; [by apply getId15_getId18_digits|].
  rewrite getId18_undefined by done. cbn [mbind option_bind].
  unfold getId15. rewrite !length_app, length_take, length_drop, Hl. reflexivity.
Qed.

Lemma getId15_getId18_witness :
  length ‹"110101900307123"› = 15%nat /\
  getId18 ‹"110101900307123"› ≫= getId15 =
  if forallb is_digit ‹"110101900307123"› then Some ‹"110101900307123"› else None.
Proof. split; [reflexivity | apply getId15_getId18; reflexivity]. Defined.

(** The fields of the 17 characters [getId18] builds. *)
Lemma field_id17 s :
  length s = 15%nat ->
  field (take 6 s ++ ‹"19"› ++ drop 6 s) 0 2 = field s 0 2 /\
  field (take 6 s ++ ‹"19"› ++ drop 6 s) 6 4 = (1900 + field s 6 2)%Z /\
  field (take 6 s ++ ‹"19"› ++ drop 6 s) 10 2 = field s 8 2 /\
  field (take 6 s ++ ‹"19"› ++ drop 6 s) 12 2 = field s 10 2.
Proof.
  intros Hl. assert (H6 : length (take 6 s) = 6%nat) by len.
  rewrite field_app_l, field_take by lia.
  rewrite !field_app_r, H6 by lia. cbn [Nat.sub].
  rewrite field_19 by len. rewrite !field_app_r by (simpl; lia).
  by rewrite !field_drop, H6.
Qed.

(** [getId18] of a number [check15IdCardNo] accepts is a number
    [check18IdCardNo] accepts. *)
Lemma getId18_check18 now s :
  (0 <= ms now)%Z -> check15IdCardNo now s = true ->
  exists t, getId18 s = Some t /\ check18IdCardNo now t = true.
Proof.
  intros Hms H. rewrite check15IdCardNo_spec in H by done. bool_to_prop.
  apply Nat.eqb_eq in H. rename H into Hl.
  destruct (getParityBit_check (take 6 s ++ ‹"19"› ++ drop 6 s)) as (pc & Hpc & Hchk);
    [by apply length_id17 | by rewrite forallb_id17|].
  rewrite getId18_15, Hpc by done. eexists. split; [reflexivity|].
  unfold concat_opt. cbn [default from_option id].
  rewrite check18IdCardNo_spec by done.
  destruct (field_id17 s Hl) as (F0 & F6 & F10 & F12).
  pose proof (length_id17 s Hl) as H17.
  rewrite length_app, H17, take_app_exact, forallb_id17 by lia.
  rewrite !(field_app_l (take 6 s ++ ‹"19"› ++ drop 6 s) [pc]), F0, F6, F10, F12 by lia.
  unfold check_char_ok. rewrite lookup_app_r, H17, Nat.sub_diag, take_app_exact by lia. simpl.
  rewrite <- checkParityBit_spec by (done || by rewrite forallb_id17).
  rewrite H1, H2, H0. simpl in Hchk |- *. by rewrite Hchk.
Qed.

(** C10: [getId18] turns every 15-character number that [checkIdCardNo]
    accepts into an 18-character number that [checkIdCardNo] accepts:
    the conversion composes with the dispatch of [checkIdCardNo] on the
    length and with the regular expressions it tests. *)
Theorem getId18_valid now s :
  (0 <= ms now)%Z -> length s = 15%nat -> checkIdCardNo now s = true ->
  exists t, getId18 s = Some t /\ length t = 18%nat /\ checkIdCardNo now t = true.
Proof.
  intros Hms Hl H. rewrite checkIdCardNo_dispatch, Hl in H.
  destruct (getId18_check18 now s Hms H) as (t & Ht & Hc).
  assert (Hlt : length t = 18%nat) by (rewrite check18IdCardNo_spec, !andb_true_iff, Nat.eqb_eq in Hc by done; tauto).
  exists t. split; [done|]. split; [done|]. by rewrite checkIdCardNo_dispatch, Hlt.
Qed.

Lemma getId18_valid_witness :
  (0 <= ms (mkDate 2026 10 9 0))%Z /\ length ‹"110101900307123"› = 15%nat /\
  checkIdCardNo (mkDate 2026 10 9 0) ‹"110101900307123"› = true /\
  exists t, getId18 ‹"110101900307123"› = Some t /\ length t = 18%nat /\
            checkIdCardNo (mkDate 2026 10 9 0) t = true.
Proof.
  split; [simpl; lia|]. split; [reflexivity|]. split; [vm_compute; reflexivity|].
  apply getId18_valid; [simpl; lia | reflexivity | vm_compute; reflexivity].
Defined.

(** [getId15] of 17 characters and a check character. *)
Lemma getId15_id17 id17 c :
  length id17 = 17%nat -> getId15 (id17 ++ [c]) = Some (take 6 id17 ++ drop 8 id17).
Proof.
  intros Hl. rewrite getId15_18 by (rewrite length_app, Hl; done). f_equal.
  rewrite take_app_le, drop_app_le, take_app_le, (take_full (drop 8 id17)) by
    len. done.
Qed.

(** C9: 18 to 15 to 18 characters gives back a valid number exactly when
    its century is [19] and its check character is not a lower case
    [x]: [getId15] drops the century, which [getId18] restores as [19],
    and [getParityBit] computes an upper case [X]. *)
Theorem getId18_getId15 now t :
  (0 <= ms now)%Z -> check18IdCardNo now t = true ->
  (getId15 t ≫= getId18 = Some t <-> take 2 (drop 6 t) = ‹"19"› /\ t !! 17%nat <> Some "x"%char).
Proof.
  intros Hms H. rewrite check18IdCardNo_spec in H by done.
  apply andb_prop in H as [H Hc]. apply andb_prop in H as [H _].
  apply andb_prop in H as [H _]. apply andb_prop in H as [Hl Hd]. apply Nat.eqb_eq in Hl.
  destruct (exists_last (l:=t)) as (id17 & c & ->); [by intros ->|].
  rewrite length_app in Hl. simpl in Hl. assert (H17 : length id17 = 17%nat) by lia. clear Hl.
  unfold check_char_ok in Hc. rewrite take_app_exact in Hc, Hd by done.
  rewrite lookup_app_r, H17, Nat.sub_diag in Hc by lia. simpl in Hc.
  rewrite lookup_app_r, H17, Nat.sub_diag by lia. cbn [lookup list_lookup].
  rewrite drop_app_le, take_app_le by len.
  assert (Hsplit : id17 = take 6 id17 ++ take 2 (drop 6 id17) ++ drop 8 id17).
  { by rewrite app_assoc, take_take_drop, take_drop. }
  rewrite getId15_id17 by done. cbn [mbind option_bind].
  rewrite getId18_15 by len.
  rewrite take_app_le, take_idemp, drop_app_length' by len.
  destruct (decide (take 2 (drop 6 id17) = ‹"19"›)) as [H19|H19].
  - rewrite <- H19, <- Hsplit, (getParityBit_upper id17 c) by done.
    unfold concat_opt. cbn [default from_option id]. split.
    + intros [= Hu]. apply app_inj_tail in Hu as [_ Hu]. split; [done|].
      intros [= ->]. discriminate Hu.
    + intros [_ Hx]. rewrite upper_char_check; [done| |by intros ->].
      unfold mod11_2 in Hc. by destruct (check_value c).
  - split; [|by intros []].
    intros [= Heq]. exfalso. apply H19. apply (f_equal (fun l => take 2 (drop 6 l))) in Heq.
    unfold concat_opt in Heq. rewrite <- !app_assoc, drop_app_length' in Heq by len.
    cbn [app take] in Heq. rewrite drop_app_le, take_app_le in Heq by len. rewrite take_app_le in Heq by len. by rewrite <- Heq.
Qed.

Lemma getId18_getId15_witness :
  (0 <= ms (mkDate 2026 10 9 0))%Z /\ check18IdCardNo (mkDate 2026 10 9 0) ‹"11010119900307125x"› = true /\
  (getId15 ‹"11010119900307125x"› ≫= getId18 = Some ‹"11010119900307125x"› <->
   take 2 (drop 6 ‹"11010119900307125x"›) = ‹"19"› /\ ‹"11010119900307125x"› !! 17%nat <> Some "x"%char).
Proof.
  split; [simpl; lia|]. split; [vm_compute; reflexivity|].
  apply (getId18_getId15 (mkDate 2026 10 9 0)); [simpl; lia | vm_compute; reflexivity].
Defined.

(** ** [getIdCardInfo] *)

(** The gender a sequence digit stands for: odd is male, even is female. *)
Definition gender_char (g : ascii) : jsstring :=
  if is_digit g && Z.even (digit_val g) then female genders else male genders.

(** [parseInt(c) % 2 == 0] holds for the even digits only: a character
    that is not a digit gives NaN, and NaN is not [0], so it counts as
    male. *)
Lemma gender_of_char g : gender_of [g] = gender_char g.
Proof.
  revert g. assert (H : forall g, bool_decide (gender_of [g] = gender_char g) = true).
  { apply forall_ascii. vm_compute. reflexivity. }
  intros g. exact (bool_decide_eq_true_1 _ (H g)).
Qed.

(** A slice of a slice. *)
Lemma take_drop_take_drop {A} (l : list A) i j k n :
  (j + n <= k)%nat -> take n (drop j (take k (drop i l))) = take n (drop (i + j) l).
Proof. intros H. by rewrite skipn_firstn_comm, take_take, drop_drop, Nat.min_l by lia. Qed.

Lemma formateDateCN_8 w :
  length w = 8%nat ->
  formateDateCN w = take 4 w ++ ‹"-"› ++ take 2 (drop 4 w) ++ ‹"-"› ++ take 2 (drop 6 w).
Proof.
  intros Hl. unfold formateDateCN, substring_from. rewrite Hl, !substring_spec by lia.
  by rewrite drop_0, (take_full (drop 6 w) 2), (take_full (drop 6 w) (8 - 6))
    by len.
Qed.

Lemma gender_at s i g : s !! i = Some g -> gender_of (charAt s i) = gender_char g.
Proof. intros H. by rewrite (charAt_lookup _ _ _ H), gender_of_char. Qed.

(** C12: [getIdCardInfo] reads the birthday [yyyy-mm-dd] from the date field
    ([19yy] for 15 characters) and the gender from the last sequence
    digit; other lengths give [undefined]. *)
Theorem getIdCardInfo_spec s :
  getIdCardInfo s =
  match length s, s !! 14%nat, s !! 16%nat with
  | 15%nat, Some g, _ =>
      Some (mkInfo (‹"19"› ++ take 2 (drop 6 s) ++ ‹"-"› ++ take 2 (drop 8 s) ++ ‹"-"› ++
                    take 2 (drop 10 s)) (gender_char g))
  | 18%nat, _, Some g =>
      Some (mkInfo (take 4 (drop 6 s) ++ ‹"-"› ++ take 2 (drop 10 s) ++ ‹"-"› ++
                    take 2 (drop 12 s)) (gender_char g))
  | _, _, _ => None
  end.
Proof.
  unfold getIdCardInfo.
  destruct (decide (length s = 15%nat)) as [H15|H15];
    [|destruct (decide (length s = 18%nat)) as [H18|H18]].
  - destruct (lookup_lt_is_Some_2 s 14) as [g Hg]; [lia|]. rewrite H15, Hg, (gender_at _ _ _ Hg).
    rewrite formateDateCN_8 by (rewrite length_app, length_substring; simpl; lia).
    rewrite substring_spec by lia. cbn [Nat.sub].
    rewrite take_app_ge, drop_app_ge, drop_app_ge by (simpl; lia). simpl length. cbn [Nat.sub].
    rewrite !take_drop_take_drop, take_take, Nat.min_l, <- app_assoc by lia. done.
  - destruct (lookup_lt_is_Some_2 s 16) as [g Hg]; [lia|].
    rewrite H18, Hg, (gender_at _ _ _ Hg).
    rewrite formateDateCN_8 by (rewrite length_substring; lia).
    rewrite substring_spec by lia. cbn [Nat.sub].
    rewrite !take_drop_take_drop, take_take, Nat.min_l by lia. done.
  - rewrite match_15_18 by done. by destruct (length s) as [|[|[|[|[|[|[|[|[|[|[|[|[|[|[|[|[|[|[|]]]]]]]]]]]]]]]]]]].
Qed.

(** ** [getIdCardInfo] across the conversions and the validation *)

(** C21: [getId18] keeps the information of a 15-digit number: the
    18-character number it builds has the same birthday and gender. *)
Theorem getIdCardInfo_getId18 s :
  length s = 15%nat -> forallb is_digit s = true -> getId18 s ≫= getIdCardInfo = getIdCardInfo s.
Proof.
  intros Hl Hd. destruct (getParityBit_check (take 6 s ++ ‹"19"› ++ drop 6 s)) as (pc & Hpc & _);
    [by apply length_id17 | by rewrite forallb_id17|].
  rewrite getId18_15, Hpc by done. clear Hpc Hd. explode_list s. reflexivity.
Qed.

Lemma getIdCardInfo_getId18_witness :
  length ‹"110101900307123"› = 15%nat /\ forallb is_digit ‹"110101900307123"› = true /\
  getId18 ‹"110101900307123"› ≫= getIdCardInfo = getIdCardInfo ‹"110101900307123"›.
Proof.
  split; [reflexivity|]. split; [reflexivity|]. apply getIdCardInfo_getId18; reflexivity.
Defined.

(** C22: [getId15] keeps the information of an 18-character number exactly
    when its century is [19]: otherwise the birthday it reports moves to
    the 1900s. *)
Theorem getIdCardInfo_getId15 t :
  length t = 18%nat -> getId15 t ≫= getIdCardInfo = getIdCardInfo t <-> take 2 (drop 6 t) = ‹"19"›.
Proof.
  intros Hl. rewrite getId15_18 by done. explode_list t. cbn.
  split; intros H; injection H; intros; subst; reflexivity.
Qed.

Lemma getIdCardInfo_getId15_witness :
  length ‹"11010120000229123X"› = 18%nat /\
  (getId15 ‹"11010120000229123X"› ≫= getIdCardInfo = getIdCardInfo ‹"11010120000229123X"› <->
   take 2 (drop 6 ‹"11010120000229123X"›) = ‹"19"›).
Proof. split; [reflexivity|]. apply getIdCardInfo_getId15. reflexivity. Defined.

(** C23: The birthday [getIdCardInfo] reports for a number [checkIdCardNo]
    accepts is, once its dashes are taken out, a date [checkBirthDayCode]
    accepts. *)
Theorem checkIdCardNo_info_birthday now s :
  checkIdCardNo now s = true ->
  exists i w, getIdCardInfo s = Some i /\ birthday i = formateDateCN w /\ checkBirthDayCode now w = true.
Proof.
  rewrite checkIdCardNo_dispatch. unfold getIdCardInfo.
  destruct (decide (length s = 15%nat)) as [E|H15];
    [|destruct (decide (length s = 18%nat)) as [E|H18]]; [rewrite E..|]; intros H.
  - unfold check15IdCardNo in H. do 2 eexists. do 2 (split; [reflexivity|]).
    destruct (Regex.test re_id15 s), (checkAddressCode _); done.
  - unfold check18IdCardNo in H. do 2 eexists. do 2 (split; [reflexivity|]).
    destruct (Regex.test re_id18 s), (checkAddressCode _), (checkBirthDayCode _ _); done.
  - by rewrite (proj2 (Nat.eqb_neq _ _) H15), (proj2 (Nat.eqb_neq _ _) H18) in H.
Qed.

Lemma checkIdCardNo_info_birthday_witness :
  checkIdCardNo (mkDate 2026 10 9 0) ‹"110101199003071233"› = true /\
  exists i w, getIdCardInfo ‹"110101199003071233"› = Some i /\ birthday i = formateDateCN w /\
              checkBirthDayCode (mkDate 2026 10 9 0) w = true.
Proof.
  split; [vm_compute; reflexivity|]. apply checkIdCardNo_info_birthday. vm_compute. reflexivity.
Defined.

End Convert.
