(* ===== verification/Values.v ===== *)
(** The methods of [idCardNoUtil] on an argument of any JavaScript type.
    The source never checks the type of [idCardNo]: a regular expression
    converts its argument to a string ([ToString]), the property read
    [idCardNo.length] is [undefined] on a number or a boolean and a
    TypeError on [null] and [undefined], and a call of [substring] or
    [charAt] is a TypeError on anything but a string.

    An argument is a [jsval]; a method returns a value of the exception
    monad [res] ([Throw TypeError] for the exception).  The numbers are
    the integers below [10^21], whose [ToString] is [number_toString].
    Once the argument is known to be a string, the rest of each method
    is the method of [Validate], [Checksum] or [Convert].

    The theorems show that [checkIdCardNo] never throws and returns
    [false] on everything but a string, that [getId15], [getId18] and
    [getIdCardInfo] throw exactly on [null] and [undefined], and that
    [check15IdCardNo] and [checkAddressCode] throw on a number their
    pattern accepts. *)

From stdpp Require Import gmap.
From S2P Require Import Prelude JsString Regex JsDate Tables Checksum Validate Convert.
Import Js Regex JsDate Tables Checksum Validate Convert.

Module Values.

(** A JavaScript value, as the methods may receive it. *)
Inductive jsval := VStr (s : jsstring) | VNum (z : Z) | VBool (b : bool) | VNull | VUndef.

(** The exceptions the methods may raise. *)
Inductive exn := TypeError.

(** The exception monad: a result, or an exception thrown. *)
Inductive res (A : Type) := Ret (a : A) | Throw (e : exn).
Arguments Ret {A}. Arguments Throw {A}.

#[export] Instance jsval_eq_dec : EqDecision jsval.
Proof. solve_decision. Defined.
#[export] Instance exn_eq_dec : EqDecision exn.
Proof. solve_decision. Defined.
#[export] Instance res_eq_dec `{EqDecision A} : EqDecision (res A).
Proof. solve_decision. Defined.

#[export] Instance res_ret : MRet res := @Ret.
#[export] Instance res_bind : MBind res :=
  fun _ _ f r => match r with Ret a => f a | Throw e => Throw e end.

(** [ToString(v)], as [RegExp.prototype.test] applies it. *)
Definition ToString (v : jsval) : jsstring :=
  match v with
  | VStr s => s
  | VNum z => number_toString z
  | VBool b => if b then ‹"true"› else ‹"false"›
  | VNull => ‹"null"›
  | VUndef => ‹"undefined"›
  end.

(** [v.length]: the length of a string, [undefined] ([None]) on a number
    or a boolean, whose wrapper objects have no [length], and a TypeError
    on [null] and [undefined]. *)
Definition get_length (v : jsval) : res (option nat) :=
  match v with
  | VStr s => mret (Some (length s))
  | VNum _ | VBool _ => mret None
  | VNull | VUndef => Throw TypeError
  end.

(** The receiver of [v.substring(...)] or [v.charAt(...)]: on a number or
    a boolean the method is [undefined], and calling it is a TypeError;
    on [null] and [undefined] the property read is one. *)
Definition to_str (v : jsval) : res jsstring :=
  match v with VStr s => mret s | _ => Throw TypeError end.

(** [checkAddressCode(addressCode)] (lines 92-94). *)
Definition checkAddressCode_v (addressCode : jsval) : res bool :=
  if negb (test re_address (ToString addressCode)) then mret false else
  s ← to_str addressCode;
  mret (truthy_str (get_num provinceAndCitys (parseInt (substring s 0 2) None))).

(** [getParityBit(idCardNo)] (lines 113-120): [idCardNo.substring(0, 17)]
    first. *)
Definition getParityBit_v (idCardNo : jsval) : res (option jsstring) :=
  s ← to_str idCardNo; mret (getParityBit s).

(** [checkParityBit(idCardNo)] (lines 126-128): [getParityBit] first. *)
Definition checkParityBit_v (idCardNo : jsval) : res bool :=
  _ ← getParityBit_v idCardNo; s ← to_str idCardNo; mret (checkParityBit s).

(** [formateDateCN(day)] (lines 177-179). *)
Definition formateDateCN_v (day : jsval) : res jsstring :=
  s ← to_str day; mret (formateDateCN s).

(** [getIdCardInfo(idCardNo)] (lines 185-200): [switch (idCardNo.length)]. *)
Definition getIdCardInfo_v (idCardNo : jsval) : res (option id_info) :=
  n ← get_length idCardNo;
  match n with
  | Some 15 | Some 18 => s ← to_str idCardNo; mret (getIdCardInfo s)
  | _ => mret None
  end.

(** [getId15(idCardNo)] (lines 206-212). *)
Definition getId15_v (idCardNo : jsval) : res (option jsstring) :=
  n ← get_length idCardNo;
  match n with
  | Some 15 | Some 18 => s ← to_str idCardNo; mret (getId15 s)
  | _ => mret None
  end.

(** [getId18(idCardNo)] (lines 218-228). *)
Definition getId18_v (idCardNo : jsval) : res (option jsstring) :=
  n ← get_length idCardNo;
  match n with
  | Some 15 | Some 18 => s ← to_str idCardNo; mret (getId18 s)
  | _ => mret None
  end.

Section WithClock.

(** The value of [new Date()] when the method runs. *)
Variable now : date.

(** [checkBirthDayCode(birDayCode)] (lines 100-107): the pattern, then
    [birDayCode.substring(0, 4)]. *)
Definition checkBirthDayCode_v (birDayCode : jsval) : res bool :=
  if negb (test re_birthday (ToString birDayCode)) then mret false else
  s ← to_str birDayCode; mret (checkBirthDayCode now s).

(** [check15IdCardNo(idCardNo)] (lines 149-156): the pattern, then
    [idCardNo.substring(0, 6)]. *)
Definition check15IdCardNo_v (idCardNo : jsval) : res bool :=
  if negb (test re_id15 (ToString idCardNo)) then mret false else
  s ← to_str idCardNo; mret (check15IdCardNo now s).

(** [check18IdCardNo(idCardNo)] (lines 162-171). *)
Definition check18IdCardNo_v (idCardNo : jsval) : res bool :=
  if negb (test re_id18 (ToString idCardNo)) then mret false else
  s ← to_str idCardNo; mret (check18IdCardNo now s).

(** [checkIdCardNo(idCardNo)] (lines 134-143): the pattern, then
    [switch (idCardNo.length)]. *)
Definition checkIdCardNo_v (idCardNo : jsval) : res bool :=
  if negb (test re_idcard (ToString idCardNo)) then mret false else
  n ← get_length idCardNo;
  match n with
  | Some 15 => check15IdCardNo_v idCardNo
  | Some 18 => check18IdCardNo_v idCardNo
  | _ => mret false
  end.

End WithClock.

(** ** The methods on a string argument *)

Lemma bind_ret {A B} (a : A) (f : A -> res B) : mret a ≫= f = f a.
Proof. reflexivity. Qed.

Lemma bind_throw {A B} e (f : A -> res B) : Throw e ≫= f = Throw e.
Proof. reflexivity. Qed.

(** [len_cases s] splits on the lengths [switch (idCardNo.length)] tells
    apart. *)
Ltac len_cases s :=
  destruct (decide (length s = 15%nat)) as [->|?];
    [|destruct (decide (length s = 18%nat)) as [->|?]; [|rewrite ?match_15_18 by done]].

Lemma check15IdCardNo_v_str now s : check15IdCardNo_v now (VStr s) = Ret (check15IdCardNo now s).
Proof.
  unfold check15IdCardNo_v. cbn [ToString]. destruct (test re_id15 s) eqn:E; [done|].
  unfold check15IdCardNo. by rewrite E.
Qed.

Lemma check18IdCardNo_v_str now s : check18IdCardNo_v now (VStr s) = Ret (check18IdCardNo now s).
Proof.
  unfold check18IdCardNo_v. cbn [ToString]. destruct (test re_id18 s) eqn:E; [done|].
  unfold check18IdCardNo. by rewrite E.
Qed.

(** ** Arguments of any type *)

(** C26: [checkIdCardNo] never throws: on a string it is the method of
    [Validate], and on a number, a boolean, [null] or [undefined] it
    returns [false] (a number its pattern accepts has no [length]). *)
Theorem checkIdCardNo_v_total now v :
  checkIdCardNo_v now v = Ret (match v with VStr s => checkIdCardNo now s | _ => false end).
Proof.
  destruct v as [s|z|[]| |]; unfold checkIdCardNo_v; cbn [ToString];
    [|by destruct (test re_idcard _)|vm_compute; reflexivity..].
  unfold checkIdCardNo. destruct (test re_idcard s); [|done]. cbn [negb get_length].
  rewrite bind_ret. cbv beta iota.
  len_cases s; [apply check15IdCardNo_v_str | apply check18IdCardNo_v_str | done].
Qed.

(** What a method that switches on [idCardNo.length] returns on a value:
    [f] of a string; [undefined] or [null] ([None]) on a number or a
    boolean; a TypeError on [null] and [undefined]. *)
Definition on_type {A} (f : jsstring -> option A) (v : jsval) : res (option A) :=
  match v with
  | VStr s => Ret (f s)
  | VNum _ | VBool _ => Ret None
  | VNull | VUndef => Throw TypeError
  end.

Lemma switch_length_v {A} (f : jsstring -> option A) v :
  (forall s, length s <> 15%nat -> length s <> 18%nat -> f s = None) ->
  (n ← get_length v;
   match n with Some 15 | Some 18 => s ← to_str v; mret (f s) | _ => mret None end) = on_type f v.
Proof.
  intros Hf. destruct v as [s| | | |]; try reflexivity.
  cbn [get_length]. rewrite bind_ret. cbv beta iota.
  len_cases s; [reflexivity | reflexivity | cbn [on_type]; by rewrite Hf].
Qed.

(** C27: [getId15], [getId18] and [getIdCardInfo] throw a TypeError exactly
    on [null] and [undefined] (the read of [idCardNo.length]); on a
    number or a boolean they return [null] or [undefined], and on a
    string they are the methods of [Convert]. *)
Theorem conversions_v_on_type v :
  getId15_v v = on_type getId15 v /\ getId18_v v = on_type getId18 v /\
  getIdCardInfo_v v = on_type getIdCardInfo v.
Proof.
  split; [|split]; apply switch_length_v; intros s H15 H18;
    [unfold getId15 | unfold getId18 | unfold getIdCardInfo]; by rewrite match_15_18.
Qed.

(** A number is not rejected the way a string is: [checkIdCardNo] of
    the number [110101900307123] is [false], while [check15IdCardNo] of
    it, [checkAddressCode] of [110101] and [checkBirthDayCode] of
    [19900307] throw a TypeError ([substring] is not a method of a
    number); the same digits as a string are a valid number. *)
Example number_arguments :
  let now := mkDate 2026 10 9 0 in
  checkIdCardNo_v now (VNum 110101900307123) = Ret false /\
  check15IdCardNo_v now (VNum 110101900307123) = Throw TypeError /\
  checkAddressCode_v (VNum 110101) = Throw TypeError /\
  checkBirthDayCode_v now (VNum 19900307) = Throw TypeError /\
  getParityBit_v (VNum 11010119900307123) = Throw TypeError /\
  checkIdCardNo_v now (VStr ‹"110101900307123"›) = Ret true.
Proof. vm_compute. repeat split. Qed.

End Values.
