(* ===== verification/Keyboard.v ===== *)
(** The key table of [src/js/Keyboard.js]: the object [Keys], built by an
    arrow function called at once, whose fields name keys and whose
    values are [KeyboardEvent.code] strings, a pair [{Left, Right}] built
    by [set], or the nested object [small] of the numeric pad.  The
    object literal is kept as the list of its fields, in the order of
    the source, and [Keys] is the map a property read sees.

    The theorems show that no field is written twice (no field of the
    literal is shadowed), that no two keys share a code, and which codes
    are not [KeyboardEvent.code] values of the UI Events specification. *)

From stdpp Require Import gmap strings.
From S2P Require Import Prelude.

Module Keyboard.

Local Open Scope string_scope.

(** The object [{ Left, Right }] that [set] returns. *)
Record sides := mkSides { Left : string; Right : string }.

(** [set(Left, Right)] (lines 122-124). *)
Definition set (Left Right : string) : sides := {| Left := Left; Right := Right |}.

(** A value of a field of [Keys]. *)
Inductive entry :=
  | Code (c : string)
  | Pair (p : sides)
  | Group (g : list (string * string)).

#[export] Instance sides_eq_dec : EqDecision sides.
Proof. solve_decision. Defined.
#[export] Instance entry_eq_dec : EqDecision entry.
Proof. solve_decision. Defined.

(** The fields of the nested object [small] (lines 82-100). *)
Definition small_fields : list (string * string) := [
  ("Num0", "Numpad0"); ("Num1", "Numpad1"); ("Num2", "Numpad2"); ("Num3", "Numpad3");
  ("Num4", "Numpad4"); ("Num5", "Numpad5"); ("Num6", "Numpad6"); ("Num7", "Numpad7");
  ("Num8", "Numpad8"); ("Num9", "Numpad9"); ("NumLock", "NumLock"); ("Enter", "NumpadEnter");
  ("*", "NumpadMultiply"); ("+", "NumpadAdd"); ("-", "NumpadSubtract");
  (".", "NumpadDecimal"); ("/", "NumpadDivide")].

(** The fields of the object literal of [Keys] (lines 8-116). *)
Definition Keys_fields : list (string * entry) := [
  ("UP", Code "ArrowUp"); ("DOWN", Code "ArrowDown"); ("RIGHT", Code "ArrowRight");
  ("LEFT", Code "ArrowLeft");
  ("Space", Code "Space"); ("Tab", Code "Tab"); ("Shift", Pair (set "ShiftLeft" "ShiftRight"));
  ("Enter", Code "Enter"); ("Ctrl", Pair (set "CtrlLeft" "CtrlRight"));
  ("Alt", Pair (set "AltLeft" "AltRight")); ("Bracket", Pair (set "BracketLeft" "BracketRight"));
  ("WIN", Pair (set "OSLeft" "OSRight")); ("Esc", Code "Escape"); ("Menu", Code "ContextMenu");
  ("CapsLock", Code "CapsLock"); ("Backspace", Code "Backspace"); ("=", Code "Equal");
  ("-", Code "Minus"); (";", Code "Semicolon"); ("'", Code "Quote"); ("|", Code "Backslash");
  (",", Code "Comma"); (".", Code "Period"); ("/", Code "Slash"); ("`", Code "Backquote");
  ("Insert", Code "Insert"); ("Delete", Code "Delete"); ("Home", Code "Home"); ("End", Code "End");
  ("PageUp", Code "PageUp"); ("PageDown", Code "PageDown");
  ("Num0", Code "Digit0"); ("Num1", Code "Digit1"); ("Num2", Code "Digit2");
  ("Num3", Code "Digit3"); ("Num4", Code "Digit4"); ("Num5", Code "Digit5");
  ("Num6", Code "Digit6"); ("Num7", Code "Digit7"); ("Num8", Code "Digit8");
  ("Num9", Code "Digit9");
  ("A", Code "KeyA"); ("B", Code "KeyB"); ("C", Code "KeyC"); ("D", Code "KeyD");
  ("E", Code "KeyE"); ("F", Code "KeyF"); ("G", Code "KeyG"); ("H", Code "KeyH");
  ("I", Code "KeyI"); ("J", Code "KeyJ"); ("K", Code "KeyK"); ("L", Code "KeyL");
  ("M", Code "KeyM"); ("N", Code "KeyN"); ("O", Code "KeyO"); ("P", Code "KeyP");
  ("Q", Code "KeyQ"); ("R", Code "KeyR"); ("S", Code "KeyS"); ("T", Code "KeyT");
  ("U", Code "KeyU"); ("V", Code "KeyV"); ("W", Code "KeyW"); ("X", Code "KeyX");
  ("Y", Code "KeyY"); ("Z", Code "KeyZ");
  ("small", Group small_fields);
  ("F1", Code "F1"); ("F2", Code "F2"); ("F3", Code "F3"); ("F4", Code "F4");
  ("F5", Code "F5"); ("F6", Code "F6"); ("F7", Code "F7"); ("F8", Code "F8");
  ("F9", Code "F9"); ("F10", Code "F10"); ("F11", Code "F11"); ("F12", Code "F12")].

(** [Keys]: an object literal keeps the last value of a field written
    twice, which [list_to_map] of the reversed list does too. *)
Definition Keys : gmap string entry := list_to_map (rev Keys_fields).

(** The codes of one value, and of the whole table. *)
Definition entry_codes (e : entry) : list string :=
  match e with
  | Code c => [c]
  | Pair p => [Left p; Right p]
  | Group g => map snd g
  end.

Definition all_codes (fs : list (string * entry)) : list string := fs ≫= (entry_codes ∘ snd).

(** The [KeyboardEvent.code] values of the UI Events specification
    ("UI Events KeyboardEvent code Values", sections 3.1 to 3.5): the
    writing system keys, the functional keys, the control pad, the arrow
    pad, the numpad and the function section. *)
Definition ui_events_codes : list string := [
  "Backquote"; "Backslash"; "BracketLeft"; "BracketRight"; "Comma";
  "Digit0"; "Digit1"; "Digit2"; "Digit3"; "Digit4"; "Digit5"; "Digit6"; "Digit7"; "Digit8"; "Digit9";
  "Equal"; "IntlBackslash"; "IntlRo"; "IntlYen";
  "KeyA"; "KeyB"; "KeyC"; "KeyD"; "KeyE"; "KeyF"; "KeyG"; "KeyH"; "KeyI"; "KeyJ"; "KeyK"; "KeyL";
  "KeyM"; "KeyN"; "KeyO"; "KeyP"; "KeyQ"; "KeyR"; "KeyS"; "KeyT"; "KeyU"; "KeyV"; "KeyW"; "KeyX";
  "KeyY"; "KeyZ"; "Minus"; "Period"; "Quote"; "Semicolon"; "Slash";
  "AltLeft"; "AltRight"; "Backspace"; "CapsLock"; "ContextMenu"; "ControlLeft"; "ControlRight";
  "Enter"; "MetaLeft"; "MetaRight"; "ShiftLeft"; "ShiftRight"; "Space"; "Tab";
  "Convert"; "KanaMode"; "Lang1"; "Lang2"; "Lang3"; "Lang4"; "Lang5"; "NonConvert";
  "Delete"; "End"; "Help"; "Home"; "Insert"; "PageDown"; "PageUp";
  "ArrowDown"; "ArrowLeft"; "ArrowRight"; "ArrowUp";
  "NumLock"; "Numpad0"; "Numpad1"; "Numpad2"; "Numpad3"; "Numpad4"; "Numpad5"; "Numpad6";
  "Numpad7"; "Numpad8"; "Numpad9"; "NumpadAdd"; "NumpadBackspace"; "NumpadClear";
  "NumpadClearEntry"; "NumpadComma"; "NumpadDecimal"; "NumpadDivide"; "NumpadEnter";
  "NumpadEqual"; "NumpadHash"; "NumpadMemoryAdd"; "NumpadMemoryClear"; "NumpadMemoryRecall";
  "NumpadMemoryStore"; "NumpadMemorySubtract"; "NumpadMultiply"; "NumpadParenLeft";
  "NumpadParenRight"; "NumpadStar"; "NumpadSubtract";
  "Escape"; "F1"; "F2"; "F3"; "F4"; "F5"; "F6"; "F7"; "F8"; "F9"; "F10"; "F11"; "F12";
  "Fn"; "FnLock"; "PrintScreen"; "ScrollLock"; "Pause"].

(** ** Properties of the table *)

(** No field of the object literal [Keys], nor of the nested object
    [small], is written twice, so each field of the source is the value a
    read of [Keys] returns. *)
Theorem Keys_fields_read :
  NoDup (map fst Keys_fields) /\ NoDup (map fst small_fields) /\
  Forall (fun '(k, e) => Keys !! k = Some e) Keys_fields.
Proof. split; [|split]; eval_decide. Qed.

(** No two keys of the table, the numeric pad included, have the same
    code: reading a code back to its key is well defined. *)
Theorem Keys_codes_distinct : NoDup (all_codes Keys_fields).
Proof. eval_decide. Qed.

(** The codes of the table that are not [KeyboardEvent.code] values:
    the two [Ctrl] codes (the standard names are [ControlLeft] and
    [ControlRight]) and the two [WIN] codes (the standard names are
    [MetaLeft] and [MetaRight]; [OSLeft] and [OSRight] are the names of
    an earlier draft). *)
Theorem Keys_nonstandard_codes :
  filter (fun c => c ∉ ui_events_codes) (all_codes Keys_fields) =
  ["CtrlLeft"; "CtrlRight"; "OSLeft"; "OSRight"].
Proof. vm_compute. reflexivity. Qed.

End Keyboard.
