(* ===== verification/Spec.v ===== *)
(** The contract of the validator, stated without the code: the rules of
    GB 11643-1999 the header comment of [src/js/idCardNoUtil.js] (lines
    1-28) and the methods implement.  A 15-character number is 15 digits
    with a province code of the table and a birth date in the 1900s; an
    18-character number is 17 digits and a check character, with a
    province code of the table, a birth date of four-digit year, and the
    ISO 7064 MOD 11-2 sum.  A birth date is a day of the calendar not
    after the day of the clock.

    The refinement theorem [checkIdCardNo_correct] shows that
    [checkIdCardNo] decides exactly this contract, for every string and
    every clock reading with a non-negative time of day, and
    [checkBirthDayCode_day_number] locates the boundary of the birth-date
    check: a day written [yyyymmdd] passes exactly when its day number is
    at most that of the clock's day.  [checkIdCardNo_stable_in_time]
    shows that acceptance survives the advance of the clock, and the
    last section checks the boundaries and examples the specification
    lists. *)

From stdpp Require Import gmap.
From S2P Require Import Prelude JsString JsDate Tables Checksum Validate Convert.
Import Js JsDate Tables Checksum Validate Convert.

Module Spec.

(** The day [(y, m, d)] ([m] from 1) is not after the day of [t]. *)
Definition not_after (y m d : Z) (t : date) : Prop :=
  (y < year t \/ (y = year t /\ (m - 1 < month t \/ (m - 1 = month t /\ d <= day t))))%Z.

(** A valid birth date: a four-digit year, a month, a day of that month,
    not in the future. *)
Definition birth_valid (now : date) (y m d : Z) : Prop :=
  (1000 <= y /\ 1 <= m <= 12 /\ 1 <= d <= days_in_month y (m - 1))%Z /\ not_after y m d now.

(** The region is a key of the province table. *)
Definition region_valid (s : jsstring) : Prop := is_Some (provinceAndCitys !! field s 0 2).

Definition all_digits (s : jsstring) : Prop := Forall (fun c => is_digit c = true) s.

(** A valid 15-character number. *)
Definition valid15 (now : date) (s : jsstring) : Prop :=
  length s = 15%nat /\ all_digits s /\ region_valid s /\
  birth_valid now (1900 + field s 6 2) (field s 8 2) (field s 10 2).

(** A valid 18-character number: the check character [c] has a value [v]
    ([X] or [x] for ten) with [sum(a_i * W_i) + v = 1 (mod 11)]. *)
Definition valid18 (now : date) (s : jsstring) : Prop :=
  length s = 18%nat /\ all_digits (take 17 s) /\ region_valid s /\
  birth_valid now (field s 6 4) (field s 10 2) (field s 12 2) /\
  exists c v, s !! 17%nat = Some c /\ check_value c = Some v /\
              ((weighted_sum (take 17 s) + v) mod 11 = 1)%Z.

(** ** The decisions of the code reflect the contract *)

Lemma all_digits_spec s : forallb is_digit s = true <-> all_digits s.
Proof. unfold all_digits. rewrite forallb_forall, Forall_forall. by setoid_rewrite list_elem_of_In. Qed.

Lemma ymd_le_spec y m d t : ymd_le y (m - 1) d t = true <-> not_after y m d t.
Proof.
  unfold ymd_le, not_after.
  rewrite orb_true_iff, andb_true_iff, orb_true_iff, andb_true_iff, Z.ltb_lt, Z.eqb_eq,
    Z.ltb_lt, Z.eqb_eq, Z.leb_le. tauto.
Qed.

Lemma born_ok_spec now y m d : born_ok now y m d = true <-> birth_valid now y m d.
Proof.
  unfold born_ok, birth_valid. rewrite !andb_true_iff, Z.leb_le, valid_ymd_spec, ymd_le_spec.
  split; intros [? ?]; (split; [lia|done]).
Qed.

Lemma region_spec s : bool_decide (field s 0 2 ∈ province_codes) = true <-> region_valid s.
Proof. unfold region_valid. rewrite provinceAndCitys_is_Some. apply bool_decide_eq_true. Qed.

Lemma mod11_2_spec id17 c :
  mod11_2 id17 c = true <->
  exists v, check_value c = Some v /\ ((weighted_sum id17 + v) mod 11 = 1)%Z.
Proof.
  unfold mod11_2. destruct (check_value c) as [v|]; [|split; [done|by intros (? & ? & _)]].
  rewrite Z.eqb_eq. split; [by eauto|]. by intros (? & [= <-] & ?).
Qed.

Lemma check15_valid15 now s :
  (0 <= ms now)%Z -> check15IdCardNo now s = true <-> valid15 now s.
Proof.
  intros Hms. rewrite check15IdCardNo_spec by done. unfold valid15.
  rewrite !andb_true_iff, Nat.eqb_eq, all_digits_spec, region_spec, born_ok_spec. tauto.
Qed.

Lemma check_char_ok_spec s :
  check_char_ok s = true <->
  exists c v, s !! 17%nat = Some c /\ check_value c = Some v /\
              ((weighted_sum (take 17 s) + v) mod 11 = 1)%Z.
Proof.
  unfold check_char_ok. destruct (s !! 17%nat) as [c|].
  - rewrite mod11_2_spec. split; [intros (v & ?); by exists c, v|].
    by intros (? & v & [= <-] & ?); exists v.
  - split; [done|]. by intros (? & ? & ? & _).
Qed.

Lemma check18_valid18 now s :
  (0 <= ms now)%Z -> check18IdCardNo now s = true <-> valid18 now s.
Proof.
  intros Hms. rewrite check18IdCardNo_spec by done. unfold valid18.
  rewrite !andb_true_iff, Nat.eqb_eq, all_digits_spec, region_spec, born_ok_spec,
    check_char_ok_spec. tauto.
Qed.

(** C1: [checkIdCardNo] accepts a string exactly when it is a valid number
    of 15 or of 18 characters. *)
Theorem checkIdCardNo_correct now s :
  (0 <= ms now)%Z -> checkIdCardNo now s = true <-> valid15 now s \/ valid18 now s.
Proof.
  intros Hms. rewrite checkIdCardNo_dispatch.
  destruct (Nat.eqb_spec (length s) 15) as [H15|H15];
    [|destruct (Nat.eqb_spec (length s) 18) as [H18|H18]].
  - rewrite check15_valid15 by done. unfold valid18. split; [by left|]. intros [|[]]; [done|lia].
  - rewrite check18_valid18 by done. unfold valid15. split; [by right|]. intros [[]|]; [lia|done].
  - unfold valid15, valid18. split; [done|]. intros [[]|[]]; lia.
Qed.

Lemma checkIdCardNo_correct_witness :
  (0 <= ms (mkDate 2026 10 9 43200000))%Z /\
  (checkIdCardNo (mkDate 2026 10 9 43200000) ‹"110101199003071233"› = true <->
   valid15 (mkDate 2026 10 9 43200000) ‹"110101199003071233"› \/
   valid18 (mkDate 2026 10 9 43200000) ‹"110101199003071233"›).
Proof. split; [simpl; lia | apply checkIdCardNo_correct; simpl; lia]. Defined.

(** ** The methods against the contract *)

(** C7: [checkAddressCode] accepts six digits whose first two are a key of
    the province table. *)
Theorem checkAddressCode_correct w :
  checkAddressCode w = true <-> length w = 6%nat /\ all_digits w /\ region_valid w.
Proof.
  rewrite checkAddressCode_spec, !andb_true_iff, Nat.eqb_eq, all_digits_spec, region_spec. tauto.
Qed.

(** C6: [checkBirthDayCode] accepts eight digits [yyyymmdd] that name a valid
    birth date. *)
Theorem checkBirthDayCode_correct now w :
  (0 <= ms now)%Z ->
  checkBirthDayCode now w = true <->
  length w = 8%nat /\ all_digits w /\ birth_valid now (field w 0 4) (field w 4 2) (field w 6 2).
Proof.
  intros Hms. rewrite checkBirthDayCode_spec by done.
  rewrite !andb_true_iff, Nat.eqb_eq, all_digits_spec, born_ok_spec. tauto.
Qed.

Lemma checkBirthDayCode_correct_witness :
  (0 <= ms (mkDate 2026 10 9 0))%Z /\
  (checkBirthDayCode (mkDate 2026 10 9 0) ‹"19900307"› = true <->
   length ‹"19900307"› = 8%nat /\ all_digits ‹"19900307"› /\
   birth_valid (mkDate 2026 10 9 0) (field ‹"19900307"› 0 4) (field ‹"19900307"› 4 2)
     (field ‹"19900307"› 6 2)).
Proof. split; [simpl; lia | apply checkBirthDayCode_correct; simpl; lia]. Defined.

(** ** The day of the clock is the last birth date accepted *)

(** The eight digits [yyyymmdd] of the calendar day [(y, m, d)], with [m]
    counted from 0 as [getMonth] counts it. *)
Definition yyyymmdd (y m d : Z) : jsstring := digits_of 4 y ++ digits_of 2 (m + 1) ++ digits_of 2 d.

Lemma field_digits_of w n : field (digits_of w n) 0 w = (n mod 10 ^ Z.of_nat w)%Z.
Proof. unfold field. rewrite drop_0, take_full by apply length_digits_of. apply digits_val_digits_of. Qed.

Lemma yyyymmdd_fields y m d :
  (0 <= y < 10000)%Z -> valid_ymd y m d = true ->
  field (yyyymmdd y m d) 0 4 = y /\ field (yyyymmdd y m d) 4 2 = (m + 1)%Z /\
  field (yyyymmdd y m d) 6 2 = d.
Proof.
  intros Hy Hv. apply valid_ymd_spec in Hv as [Hm Hd]. pose proof (days_in_month_bounds y m).
  unfold yyyymmdd. split; [|split].
  - rewrite field_app_l, field_digits_of by len. apply Z.mod_small. simpl. lia.
  - rewrite field_app_r, length_digits_of by len. cbn [Nat.sub].
    rewrite field_app_l, field_digits_of by len. apply Z.mod_small. simpl. lia.
  - rewrite field_app_r, length_digits_of by len. cbn [Nat.sub].
    rewrite field_app_r, length_digits_of by len. cbn [Nat.sub].
    rewrite field_digits_of. apply Z.mod_small. simpl. lia.
Qed.

(** C17: [checkBirthDayCode] of a calendar day written [yyyymmdd], with a
    year of four digits, returns [true] exactly when the day number of
    that day is not greater than the day number of the clock's day: the
    day of the clock is accepted and the day after it is not. *)
Theorem checkBirthDayCode_day_number now y m d :
  valid_date now = true -> (1000 <= y <= 9999)%Z -> valid_ymd y m d = true ->
  checkBirthDayCode now (yyyymmdd y m d) =
  (day_number y m d <=? day_number (year now) (month now) (day now))%Z.
Proof.
  unfold valid_date. intros Hnow Hy Hv. bool_to_prop.
  destruct (yyyymmdd_fields y m d ltac:(lia) Hv) as (Fy & Fm & Fd).
  rewrite checkBirthDayCode_spec by lia. unfold born_ok.
  replace (length (yyyymmdd y m d)) with 8%nat by (unfold yyyymmdd; len).
  replace (forallb is_digit (yyyymmdd y m d)) with true
    by (unfold yyyymmdd; by rewrite !forallb_app, !digits_of_digits).
  rewrite Fy, Fm, Fd, Z.add_simpl_r, Hv.
  rewrite ymd_le_day_number by done. simpl. by rewrite (proj2 (Z.leb_le 1000 y)) by lia.
Qed.

Lemma checkBirthDayCode_day_number_witness :
  valid_date (mkDate 2026 10 9 0) = true /\ (1000 <= 2026 <= 9999)%Z /\ valid_ymd 2026 10 10 = true /\
  checkBirthDayCode (mkDate 2026 10 9 0) (yyyymmdd 2026 10 10) =
  (day_number 2026 10 10 <=? day_number (year (mkDate 2026 10 9 0)) (month (mkDate 2026 10 9 0))
                                        (day (mkDate 2026 10 9 0)))%Z.
Proof.
  split; [reflexivity|]. split; [lia|]. split; [reflexivity|].
  apply checkBirthDayCode_day_number; [reflexivity | lia | reflexivity].
Defined.

(** C2: [checkParityBit] of 17 digits and a check character [c] is the
    MOD 11-2 rule of ISO 7064. *)
Theorem checkParityBit_correct id17 c :
  length id17 = 17%nat -> all_digits id17 ->
  checkParityBit (id17 ++ [c]) = true <->
  exists v, check_value c = Some v /\ ((weighted_sum id17 + v) mod 11 = 1)%Z.
Proof.
  intros Hl Hd. apply all_digits_spec in Hd. by rewrite checkParityBit_spec, mod11_2_spec.
Qed.

Lemma checkParityBit_correct_witness :
  length ‹"11010119900307123"› = 17%nat /\ all_digits ‹"11010119900307123"› /\
  (checkParityBit (‹"11010119900307123"› ++ ["3"%char]) = true <->
   exists v, check_value "3"%char = Some v /\ ((weighted_sum ‹"11010119900307123"› + v) mod 11 = 1)%Z).
Proof.
  split; [reflexivity|]. split; [unfold all_digits; simpl; repeat constructor|].
  apply checkParityBit_correct; [reflexivity | unfold all_digits; simpl; repeat constructor].
Defined.



(** [getId15] does not keep validity: a number of someone born on
    29 February 2000 becomes a 15-character number whose birth date,
    read in the 1900s, is 29 February 1900, which does not exist. *)
Example getId15_loses_century :
  let now := mkDate 2026 10 9 0 in
  checkIdCardNo now ‹"11010120000229123X"› = true /\
  getId15 ‹"11010120000229123X"› = Some ‹"110101000229123"› /\
  checkIdCardNo now ‹"110101000229123"› = false.
Proof. vm_compute. repeat split. Qed.

(** The example number of the specification, [11010119900307143X], does
    not pass: the check character of its first 17 digits is [6]. *)
Example spec_fixture_check_char :
  getParityBit ‹"11010119900307143"› = Some ‹"6"› /\
  checkIdCardNo (mkDate 2026 10 9 0) ‹"11010119900307143X"› = false /\
  checkIdCardNo (mkDate 2026 10 9 0) ‹"110101199003071436"› = true.
Proof. vm_compute. repeat split. Qed.

(** ** Acceptance over time *)

Lemma not_after_mono y m d now later :
  date_gt now later = false -> not_after y m d now -> not_after y m d later.
Proof.
  unfold date_gt, not_after. intros Hg.
  destruct (Z.ltb_spec (year later) (year now)), (Z.eqb_spec (year now) (year later)),
    (Z.ltb_spec (month later) (month now)), (Z.eqb_spec (month now) (month later)),
    (Z.ltb_spec (day later) (day now)); simpl in Hg; try discriminate; lia.
Qed.

Lemma birth_valid_mono now later y m d :
  date_gt now later = false -> birth_valid now y m d -> birth_valid later y m d.
Proof. intros Hg [Hc Hn]. split; [done|]. by eapply not_after_mono. Qed.

(** C25: A number [checkIdCardNo] accepts stays accepted at any later
    reading of the clock: no check but the future-date guard depends on
    the clock, and a date not after one day is not after any later one. *)
Theorem checkIdCardNo_stable_in_time now later s :
  (0 <= ms now)%Z -> (0 <= ms later)%Z -> date_gt now later = false ->
  checkIdCardNo now s = true -> checkIdCardNo later s = true.
Proof.
  intros Hn Hl Hg. rewrite !checkIdCardNo_dispatch.
  destruct (Nat.eqb (length s) 15); [|destruct (Nat.eqb (length s) 18); [|done]].
  - rewrite !check15_valid15 by done. intros (? & ? & ? & Hb).
    do 3 (split; [done|]). by eapply birth_valid_mono.
  - rewrite !check18_valid18 by done. intros (? & ? & ? & Hb & ?).
    do 3 (split; [done|]). split; [by eapply birth_valid_mono | done].
Qed.

Lemma checkIdCardNo_stable_in_time_witness :
  (0 <= ms (mkDate 2026 10 9 0))%Z /\ (0 <= ms (mkDate 2030 0 1 0))%Z /\
  date_gt (mkDate 2026 10 9 0) (mkDate 2030 0 1 0) = false /\
  checkIdCardNo (mkDate 2026 10 9 0) ‹"110101199003071233"› = true /\
  checkIdCardNo (mkDate 2030 0 1 0) ‹"110101199003071233"› = true.
Proof.
  split; [simpl; lia|]. split; [simpl; lia|]. split; [reflexivity|]. split; [vm_compute; reflexivity|].
  apply (checkIdCardNo_stable_in_time (mkDate 2026 10 9 0)); [simpl; lia | simpl; lia | reflexivity |
    vm_compute; reflexivity].
Defined.

(** ** The boundaries and examples of the specification *)

(** C24: Whatever its last four digits, an address code starting with [00]
    is rejected and one starting with [11] (Beijing) is accepted. *)
Theorem checkAddressCode_00_11 u :
  length u = 4%nat -> forallb is_digit u = true ->
  checkAddressCode (‹"00"› ++ u) = false /\ checkAddressCode (‹"11"› ++ u) = true.
Proof.
  intros Hl Hd. rewrite !checkAddressCode_spec, !field_app_l by (simpl; lia).
  rewrite !length_app, Hl. cbn. rewrite Hd. split; reflexivity.
Qed.

Lemma checkAddressCode_00_11_witness :
  length ‹"0101"› = 4%nat /\ forallb is_digit ‹"0101"› = true /\
  checkAddressCode (‹"00"› ++ ‹"0101"›) = false /\ checkAddressCode (‹"11"› ++ ‹"0101"›) = true.
Proof. split; [reflexivity|]. split; [reflexivity|]. apply checkAddressCode_00_11; reflexivity. Defined.

(** The examples of the specification: [checkIdCardNo("123")] and
    [checkIdCardNo("000000199003071234")] are false (a wrong length, the
    region [00]); [getIdCardInfo] of a valid 15-character number gives
    male ([男]) for an odd last digit and female ([女]) for an even one. *)
Example spec_examples :
  let now := mkDate 2026 10 9 0 in
  checkIdCardNo now ‹"123"› = false /\
  checkIdCardNo now ‹"000000199003071234"› = false /\
  checkIdCardNo now ‹"110101900307123"› = true /\
  checkIdCardNo now ‹"110101900307124"› = true /\
  option_map gender (getIdCardInfo ‹"110101900307123"›) = Some (male genders) /\
  option_map gender (getIdCardInfo ‹"110101900307124"›) = Some (female genders).
Proof. vm_compute. repeat split. Qed.

End Spec.
